(** * gemini-cli-sdk: a shallow embedding of the session store, the tool
    wrapper, the sub-agent bridge and the turn loop, with the properties
    the specification states about them.

    Layout: Part I holds the embedding (one module per source file),
    Part II the theorems.  JavaScript values that the source handles as
    [unknown] are modelled by [Js.JsValue]; a call that may throw returns
    a [Js.Completion]. *)

From Stdlib Require Import String Ascii List Bool ZArith Lia.
From Stdlib Require Import Sorting.Sorted Sorting.Permutation.
From Stdlib Require Import Numbers.DecimalString.
From Stdlib Require OrdersEx.
Import ListNotations.
Open Scope string_scope.
Open Scope list_scope.
Set Warnings "-register-all".

(* ===================================================================== *)
(** * Part I : the embedding                                              *)
(* ===================================================================== *)

(** ** JavaScript values *)

Module Js.

(** The values [JSON.parse] produces, plus [undefined].  Numbers are the
    integers: the source only reads lengths. *)
Inductive JsValue : Type :=
| JUndefined
| JNull
| JBool (b : bool)
| JNumber (n : Z)
| JString (s : string)
| JArray (items : list JsValue)
| JObject (fields : list (string * JsValue)).

(** What a [throw] carries.  [ToolError] extends [Error]; any value can be
    thrown. *)
Inductive Thrown : Type :=
| ThrownToolError (message : string)
| ThrownError (message : string)
| ThrownValue (v : JsValue).

(** The outcome of a call that may throw. *)
Inductive Completion (A : Type) : Type :=
| Normal (a : A)
| Throw (e : Thrown).

Arguments Normal {A} a.
Arguments Throw {A} e.

Definition bind {A B : Type} (c : Completion A) (k : A -> Completion B)
  : Completion B :=
  match c with
  | Normal a => k a
  | Throw e => Throw e
  end.

(** [!v] is [negb (truthy v)]. *)
Definition truthy (v : JsValue) : bool :=
  match v with
  | JUndefined | JNull => false
  | JBool b => b
  | JNumber n => negb (n =? 0)%Z
  | JString s => negb (s =? "")
  | JArray _ | JObject _ => true
  end.

(** [v != null] *)
Definition notNullish (v : JsValue) : bool :=
  match v with
  | JUndefined | JNull => false
  | _ => true
  end.

Fixpoint lookupField (key : string) (fields : list (string * JsValue))
  : JsValue :=
  match fields with
  | [] => JUndefined
  | (k, v) :: rest => if k =? key then v else lookupField key rest
  end.

Definition hasField (key : string) (fields : list (string * JsValue)) : bool :=
  existsb (fun kv => fst kv =? key) fields.

(** [v.key] for a named (non-index) key: reading a property of [undefined]
    or [null] throws a TypeError; arrays and strings own [length]. *)
Definition getProp (v : JsValue) (key : string) : Completion JsValue :=
  match v with
  | JUndefined | JNull =>
      Throw (ThrownError "Cannot read properties of undefined or null")
  | JObject fields => Normal (lookupField key fields)
  | JArray items =>
      Normal (if key =? "length" then JNumber (Z.of_nat (List.length items))
              else JUndefined)
  | JString s =>
      Normal (if key =? "length" then JNumber (Z.of_nat (String.length s))
              else JUndefined)
  | JBool _ | JNumber _ => Normal JUndefined
  end.

(** [Array.prototype.join] on strings. *)
Definition join (sep : string) (items : list string) : string :=
  String.concat sep items.

(** [String(v)]. *)
Fixpoint toString (v : JsValue) : string :=
  match v with
  | JUndefined => "undefined"
  | JNull => "null"
  | JBool true => "true"
  | JBool false => "false"
  | JNumber n => NilZero.string_of_int (Z.to_int n)
  | JString s => s
  | JArray items =>
      join ","
        (List.map (fun item =>
                     match item with
                     | JUndefined | JNull => ""
                     | _ => toString item
                     end) items)
  | JObject _ => "[object Object]"
  end.

(** [String.prototype.startsWith] and [endsWith]. *)
Definition startsWith (s p : string) : bool := String.prefix p s.

Definition endsWith (s p : string) : bool :=
  let n := String.length s in
  let m := String.length p in
  (m <=? n)%nat && (String.substring (n - m) m s =? p).

End Js.

Import Js.

Notation "x <- c ;; k" := (Js.bind c (fun x => k))
  (at level 61, c at next level, right associativity).

(** ** session.ts *)

Module Session.

(** [MessageRecord["type"]] of the core package: the string literals
    user, gemini, info, error and warning. *)
Inductive MessageType : Type :=
| MsgUser | MsgGemini | MsgInfo | MsgError | MsgWarning.

Record ToolCallRecord : Type := {
  tc_id : string;
  tc_name : string;
  tc_args : JsValue;
  tc_result : JsValue
}.

Record MessageRecord : Type := {
  msg_type : MessageType;
  msg_content : JsValue;
  msg_toolCalls : option (list ToolCallRecord)
}.

(** [Content] of the model API: a role and its parts.  A [Part] is a plain
    object; the source casts to it without a check. *)
Definition Part : Type := JsValue.

Record Content : Type := {
  role : string;
  parts : list Part
}.

Definition textPart (s : string) : Part := JObject [("text", JString s)].

Definition functionCallPart (tc : ToolCallRecord) : Part :=
  JObject [("functionCall",
            JObject [("id", JString (tc_id tc));
                     ("name", JString (tc_name tc));
                     ("args", tc_args tc)])].

Definition normalizeParts (content : JsValue) : list Part :=
  if negb (truthy content) then []
  else match content with
       | JString s => [textPart s]
       | JArray items =>
           List.map (fun item =>
                       match item with
                       | JString s => textPart s
                       | _ => item
                       end) items
       | _ => [content]
       end.

(** One pass of the loop body of [messageRecordsToHistory]: the pushes the
    body makes onto [history] for [msg]. *)
Definition processMessage (history : list Content) (msg : MessageRecord)
  : list Content :=
  match msg_type msg with
  | MsgInfo | MsgError | MsgWarning => history
  | MsgUser =>
      let parts := normalizeParts (msg_content msg) in
      if (0 <? List.length parts)%nat
      then history ++ [{| role := "user"; parts := parts |}]
      else history
  | MsgGemini =>
      let contentParts := normalizeParts (msg_content msg) in
      let modelParts := [] ++ contentParts in
      let modelParts :=
        match msg_toolCalls msg with
        | Some tcs =>
            fold_left (fun acc tc => acc ++ [functionCallPart tc]) tcs
              modelParts
        | None => modelParts
        end in
      let history :=
        if (0 <? List.length modelParts)%nat
        then history ++ [{| role := "model"; parts := modelParts |}]
        else history in
      match msg_toolCalls msg with
      | Some tcs =>
          if existsb (fun tc => notNullish (tc_result tc)) tcs
          then
            let responseParts :=
              fold_left
                (fun acc tc =>
                   if notNullish (tc_result tc)
                   then acc ++ normalizeParts (tc_result tc)
                   else acc)
                tcs [] in
            if (0 <? List.length responseParts)%nat
            then history ++ [{| role := "user"; parts := responseParts |}]
            else history
          else history
      | None => history
      end
  end.

Definition messageRecordsToHistory (messages : list MessageRecord)
  : list Content :=
  fold_left processMessage messages [].

(** *** The reconstruction, said in the specification's words

    An entry is dropped, or becomes a user turn, or a model turn followed
    by a response turn; a turn with no part is not emitted. *)

Definition isAnnotation (msg : MessageRecord) : bool :=
  match msg_type msg with
  | MsgInfo | MsgError | MsgWarning => true
  | MsgUser | MsgGemini => false
  end.

Definition toolCallsOf (msg : MessageRecord) : list ToolCallRecord :=
  match msg_toolCalls msg with
  | Some tcs => tcs
  | None => []
  end.

Definition turn (r : string) (ps : list Part) : list Content :=
  match ps with
  | [] => []
  | _ :: _ => [{| role := r; parts := ps |}]
  end.

Definition modelPartsOf (msg : MessageRecord) : list Part :=
  normalizeParts (msg_content msg)
    ++ List.map functionCallPart (toolCallsOf msg).

Definition resultPartsOf (msg : MessageRecord) : list Part :=
  flat_map
    (fun tc =>
       if notNullish (tc_result tc) then normalizeParts (tc_result tc)
       else [])
    (toolCallsOf msg).

Definition entryTurns (msg : MessageRecord) : list Content :=
  match msg_type msg with
  | MsgInfo | MsgError | MsgWarning => []
  | MsgUser => turn "user" (normalizeParts (msg_content msg))
  | MsgGemini =>
      turn "model" (modelPartsOf msg) ++ turn "user" (resultPartsOf msg)
  end.

Definition bareString (p : Part) : bool :=
  match p with
  | JString _ => true
  | _ => false
  end.

(** *** listSessions / loadSession *)

Record SessionInfo : Type := {
  sessionId : JsValue;
  filePath : string;
  startTime : JsValue;
  lastUpdated : JsValue;
  messageCount : JsValue;
  summary : JsValue
}.

(** [node:fs/promises] as the two calls the source makes. *)
Record FileSystem : Type := {
  readdir : string -> Completion (list string);
  readFile : string -> Completion string
}.

(** [Array.prototype.sort] with a comparator: a stable sort.  For a
    consistent comparator every stable sort returns the same array, so
    insertion is as good as the engine's algorithm. *)
Fixpoint insertSorted (cmp : string -> string -> Z) (x : string)
  (sorted : list string) : list string :=
  match sorted with
  | [] => [x]
  | y :: rest =>
      if (cmp x y <=? 0)%Z then x :: y :: rest
      else y :: insertSorted cmp x rest
  end.

Definition sort (cmp : string -> string -> Z) (l : list string)
  : list string :=
  fold_right (insertSorted cmp) [] l.

Section ListSessions.

(** Names the source imports: the core's file prefix, [JSON.parse],
    [String.prototype.localeCompare] and [path.join]. *)
Variable SESSION_FILE_PREFIX : string.
Variable JSON_parse : string -> Completion JsValue.
Variable localeCompare : string -> string -> Z.
Variable path_join : string -> string -> string.

Definition isSessionFile (f : string) : bool :=
  startsWith f SESSION_FILE_PREFIX && endsWith f ".json".

(** The body of the [try] block for one file, up to the value pushed. *)
Definition readSessionInfo (fs : FileSystem) (chatsDir file : string)
  : Completion SessionInfo :=
  let filePath := path_join chatsDir file in
  raw <- readFile fs filePath ;;
  conv <- JSON_parse raw ;;
  sessionId <- getProp conv "sessionId" ;;
  startTime <- getProp conv "startTime" ;;
  lastUpdated <- getProp conv "lastUpdated" ;;
  messages <- getProp conv "messages" ;;
  messageCount <- getProp messages "length" ;;
  summary <- getProp conv "summary" ;;
  Normal {| sessionId := sessionId;
            filePath := filePath;
            startTime := startTime;
            lastUpdated := lastUpdated;
            messageCount := messageCount;
            summary := summary |}.

Definition listSessions (projectTempDir : string) (fs : FileSystem)
  : list SessionInfo :=
  let chatsDir := path_join projectTempDir "chats" in
  match readdir fs chatsDir with
  | Throw _ => []
  | Normal files =>
      let sessionFiles :=
        sort (fun a b => localeCompare b a) (filter isSessionFile files) in
      fold_left
        (fun sessions file =>
           match readSessionInfo fs chatsDir file with
           | Normal info => sessions ++ [info]
           | Throw _ => sessions
           end)
        sessionFiles []
  end.

(** The names [readdir] gives, none when it fails; whether a file decodes;
    and the order of the listing. *)
Definition directoryFiles (fs : FileSystem) (dir : string) : list string :=
  match readdir fs dir with
  | Normal files => files
  | Throw _ => []
  end.

Definition decodes (fs : FileSystem) (chatsDir file : string) : bool :=
  match readSessionInfo fs chatsDir file with
  | Normal _ => true
  | Throw _ => false
  end.

Definition newestFirst (a b : string) : Prop := (localeCompare b a <= 0)%Z.

Definition loadSession (fs : FileSystem) (filePath : string)
  : Completion (JsValue * string) :=
  raw <- readFile fs filePath ;;
  conversation <- JSON_parse raw ;;
  Normal (conversation, filePath).

End ListSessions.

End Session.

(** ** tool.ts *)

Module Tool.

(** [new ToolError(message)]: from a string, or from an [Error] whose
    message it takes over. *)
Definition newToolError (message : string) : Thrown :=
  ThrownToolError message.

Definition instanceofToolError (e : Thrown) : bool :=
  match e with
  | ThrownToolError _ => true
  | _ => false
  end.

Definition instanceofError (e : Thrown) : bool :=
  match e with
  | ThrownToolError _ | ThrownError _ => true
  | ThrownValue _ => false
  end.

(** [error instanceof Error ? error.message : String(error)] *)
Definition errorMessage (e : Thrown) : string :=
  match e with
  | ThrownToolError message | ThrownError message => message
  | ThrownValue v => toString v
  end.

(** [llmContent] and [returnDisplay] hold what [serialize] gave, which is
    [undefined] ([None]) when [JSON.stringify] has no text for the value. *)
Record ToolResult : Type := {
  llmContent : option string;
  returnDisplay : option string;
  error : option string
}.

Section WithWorld.

(** [World] is whatever an asynchronous action can read and change: the
    core configuration, files, the network. *)
Variable World : Type.
Variable SessionContext : Type.
(** [JSON.stringify(value, null, 2)]: a text; [undefined] for a value
    that has none, as [undefined] itself; or a throw, as on a BigInt, a
    cycle or a [toJSON] that throws. *)
Variable JSON_stringify : JsValue -> Completion (option string).

Definition ToolAction : Type :=
  JsValue -> option SessionContext -> World -> Completion JsValue * World.

(** The input schema is left out: validation is the core base class's. *)
Record ToolDef : Type := {
  name : string;
  description : string;
  sendErrorsToModel : option bool;
  action : ToolAction
}.

Definition defineTool (name description : string)
  (sendErrorsToModel : option bool) (action : ToolAction) : ToolDef :=
  {| name := name;
     description := description;
     sendErrorsToModel := sendErrorsToModel;
     action := action |}.

Record SdkToolInvocation : Type := {
  inv_params : JsValue;
  inv_action : ToolAction;
  inv_context : option SessionContext;
  inv_toolName : string;
  inv_sendErrorsToModel : bool
}.

Definition serialize (value : JsValue) : Completion (option string) :=
  match value with
  | JString s => Normal (Some s)
  | _ => JSON_stringify value
  end.

(** The [try] block holds the action and [serialize]; the [catch] block
    gets what either threw. *)
Definition execute (inv : SdkToolInvocation) (w : World)
  : Completion ToolResult * World :=
  let '(acted, w') := inv_action inv (inv_params inv) (inv_context inv) w in
  let tried :=
    result <- acted ;;
    output <- serialize result ;;
    Normal {| llmContent := output;
              returnDisplay := output;
              error := None |} in
  match tried with
  | Normal toolResult => (Normal toolResult, w')
  | Throw error =>
      if inv_sendErrorsToModel inv || instanceofToolError error
      then
        let message := errorMessage error in
        (Normal {| llmContent := Some ("Error: " ++ message)%string;
                   returnDisplay := Some ("Error: " ++ message)%string;
                   error := Some message |}, w')
      else (Throw error, w')
  end.

Record SdkTool : Type := {
  def : ToolDef;
  context : option SessionContext
}.

Definition newSdkTool (def : ToolDef) : SdkTool :=
  {| def := def; context := None |}.

Definition withContext (tool : SdkTool) (context : SessionContext) : SdkTool :=
  {| def := def tool; context := Some context |}.

Definition createInvocation (tool : SdkTool) (params : JsValue)
  (toolName : option string) : SdkToolInvocation :=
  {| inv_params := params;
     inv_action := action (def tool);
     inv_context := context tool;
     inv_toolName :=
       match toolName with
       | Some n => n
       | None => name (def tool)
       end;
     inv_sendErrorsToModel :=
       match sendErrorsToModel (def tool) with
       | Some b => b
       | None => false
       end |}.

End WithWorld.

Arguments name {World SessionContext} _.
Arguments description {World SessionContext} _.
Arguments sendErrorsToModel {World SessionContext} _.
Arguments action {World SessionContext} _.
Arguments Build_ToolDef {World SessionContext} _ _ _ _.
Arguments inv_params {World SessionContext} _.
Arguments inv_action {World SessionContext} _.
Arguments inv_context {World SessionContext} _.
Arguments inv_toolName {World SessionContext} _.
Arguments inv_sendErrorsToModel {World SessionContext} _.
Arguments Build_SdkToolInvocation {World SessionContext} _ _ _ _ _.
Arguments def {World SessionContext} _.
Arguments context {World SessionContext} _.
Arguments Build_SdkTool {World SessionContext} _ _.
Arguments defineTool {World SessionContext} _ _ _ _.
Arguments execute {World SessionContext} JSON_stringify inv w.
Arguments newSdkTool {World SessionContext} def.
Arguments withContext {World SessionContext} tool context.
Arguments createInvocation {World SessionContext} tool params toolName.

End Tool.

(** ** subagent.ts *)

Module SubAgent.

Record LocalAgentDefinition : Type := {
  name : string;
  description : string;
  systemPrompt : string;
  query : option string;
  model : string;
  maxTurns : option Z;
  maxTimeMinutes : option Z;
  tools : option (list string)
}.

Record RemoteAgentDefinition : Type := {
  remote_name : string;
  remote_description : string;
  agentCardUrl : string
}.


(** What [executor.run] resolves to.  A member of the core's string enum
    [AgentTerminateMode] is its string code at run time. *)
Record OutputObject : Type := {
  result : string;
  terminate_reason : string
}.

(** The parts of the remote-agent protocol, by [kind]. *)
Inductive A2APart : Type :=
| TextPart (text : string)
| FilePart (file : JsValue)
| DataPart (data : JsValue).

Record Message : Type := {
  messageId : string;
  message_role : string;
  message_parts : list A2APart
}.

Record TaskStatus : Type := {
  state : string;
  status_message : option Message
}.

Record Task : Type := {
  task_id : string;
  status : option TaskStatus
}.

Inductive SendMessageResult : Type :=
| ResultMessage (m : Message)
| ResultTask (t : Task).

Definition doubleQuote : string := String (ascii_of_nat 34) EmptyString.

Definition newline : string := String (ascii_of_nat 10) EmptyString.

(** [needle] occurs in [hay]. *)
Definition occursIn (needle hay : string) : Prop :=
  exists before after : string, hay = (before ++ needle ++ after)%string.

Definition isTextPart (p : A2APart) : bool :=
  match p with
  | TextPart _ => true
  | _ => false
  end.

(** [p.text]; only read after the filter on [kind]. *)
Definition partText (p : A2APart) : string :=
  match p with
  | TextPart text => text
  | _ => ""
  end.

Definition extractTextFromParts (parts : list A2APart) : string :=
  join newline (List.map partText (filter isTextPart parts)).

Definition extractTextFromResult (result : SendMessageResult) : string :=
  match result with
  | ResultMessage m => extractTextFromParts (message_parts m)
  | ResultTask t =>
      let parts :=
        match status t with
        | Some st =>
            match status_message st with
            | Some m => Some (message_parts m)
            | None => None
            end
        | None => None
        end in
      match parts with
      | Some parts => extractTextFromParts parts
      | None => ""
      end
  end.

(** The response's part list the text is taken from, none for a task
    without a status message; and the texts of its text parts, in order. *)
Definition relevantParts (result : SendMessageResult) : list A2APart :=
  match result with
  | ResultMessage m => message_parts m
  | ResultTask t =>
      match status t with
      | Some st =>
          match status_message st with
          | Some m => message_parts m
          | None => []
          end
      | None => []
      end
  end.

Fixpoint textsOf (parts : list A2APart) : list string :=
  match parts with
  | [] => []
  | TextPart text :: rest => text :: textsOf rest
  | _ :: rest => textsOf rest
  end.

Section WithCore.

Variable World : Type.
Variable SessionContext : Type.

(** A prompt given as a string, or as a function of the call's parameters
    and context. *)
Inductive PromptValue : Type :=
| PromptString (s : string)
| PromptFunction
    (f : JsValue -> option SessionContext -> World ->
         Completion string * World).

Record SubAgentOptions : Type := {
  opt_name : string;
  opt_description : string;
  opt_systemPrompt : PromptValue;
  opt_query : option PromptValue;
  opt_model : option string;
  opt_maxTurns : option Z;
  opt_maxTimeMinutes : option Z;
  opt_tools : option (list string)
}.

(** The core package and the protocol client, as the calls made on them:
    [AgentTerminateMode.GOAL], [config.getActiveModel()],
    [config.modelConfigService.registerRuntimeModelConfig(alias, ..)],
    [LocalAgentExecutor.create(def, config, onActivity)] followed by
    [executor.run(params, signal)], [factory.createFromUrl(url)] followed
    by the blocking [client.sendMessage] of one text part, and
    [JSON.stringify(params)]. *)
Variable GOAL : string.
Variable getActiveModel : World -> string.
Variable registerRuntimeModelConfig : string -> string -> World -> World.
Variable runLocalAgentExecutor :
  LocalAgentDefinition -> JsValue -> World -> Completion OutputObject * World.
Variable sendMessage :
  string -> string -> World -> Completion SendMessageResult * World.
Variable JSON_stringify : JsValue -> string.

Definition resolvePromptValue (value : PromptValue) (params : JsValue)
  (ctx : option SessionContext) (w : World) : Completion string * World :=
  match value with
  | PromptFunction f => f params ctx w
  | PromptString s => (Normal s, w)
  end.

Definition buildLocalAgentDef (options : SubAgentOptions)
  (systemPrompt : string) (query : option string) : LocalAgentDefinition :=
  {| name := opt_name options;
     description := opt_description options;
     systemPrompt := systemPrompt;
     query := query;
     model :=
       match opt_model options with
       | Some m => m
       | None => "inherit"
       end;
     maxTurns := opt_maxTurns options;
     maxTimeMinutes := opt_maxTimeMinutes options;
     tools := opt_tools options |}.

Definition terminatedMessage (def : LocalAgentDefinition)
  (reason : string) : string :=
  ("Sub-agent " ++ doubleQuote ++ name def ++ doubleQuote
     ++ " terminated: " ++ reason)%string.

Definition executeLocalAgent (def : LocalAgentDefinition) (params : JsValue)
  (ctx : option SessionContext) (w : World) : Completion string * World :=
  match ctx with
  | None =>
      (* ctx.agent on an absent context *)
      (Throw (ThrownError "Cannot read properties of undefined"), w)
  | Some _ =>
      let alias := (name def ++ "-config")%string in
      let w :=
        registerRuntimeModelConfig alias
          (if model def =? "inherit" then getActiveModel w else model def) w in
      match runLocalAgentExecutor def params w with
      | (Throw e, w) => (Throw e, w)
      | (Normal result, w) =>
          if negb (terminate_reason result =? GOAL)
          then
            (Throw (Tool.newToolError
                      (terminatedMessage def (terminate_reason result))), w)
          else (Normal (SubAgent.result result), w)
      end
  end.

Definition stringResult (r : Completion string * World)
  : Completion JsValue * World :=
  match r with
  | (Normal s, w) => (Normal (JString s), w)
  | (Throw e, w) => (Throw e, w)
  end.

Definition wrapLocalAgentAsTool (def : LocalAgentDefinition)
  : Tool.ToolDef World SessionContext :=
  {| Tool.name := name def;
     Tool.description := description def;
     Tool.sendErrorsToModel := Some true;
     Tool.action := fun params ctx w =>
       stringResult (executeLocalAgent def params ctx w) |}.

Definition isPromptFunction (v : PromptValue) : bool :=
  match v with
  | PromptFunction _ => true
  | PromptString _ => false
  end.

Definition staticPrompt (v : PromptValue) : string :=
  match v with
  | PromptString s => s
  | PromptFunction _ => ""
  end.

Definition defineSubAgent (options : SubAgentOptions)
  : Tool.ToolDef World SessionContext :=
  let hasDynamicPrompt :=
    isPromptFunction (opt_systemPrompt options)
    || match opt_query options with
       | Some q => isPromptFunction q
       | None => false
       end in
  if negb hasDynamicPrompt
  then
    wrapLocalAgentAsTool
      (buildLocalAgentDef options
         (staticPrompt (opt_systemPrompt options))
         (option_map staticPrompt (opt_query options)))
  else
    {| Tool.name := opt_name options;
       Tool.description := opt_description options;
       Tool.sendErrorsToModel := Some true;
       Tool.action := fun params ctx w =>
         match resolvePromptValue (opt_systemPrompt options) params ctx w with
         | (Throw e, w) => (Throw e, w)
         | (Normal resolvedSystemPrompt, w) =>
             let '(resolvedQuery, w) :=
               match opt_query options with
               | Some q =>
                   match resolvePromptValue q params ctx w with
                   | (Throw e, w) => (Throw e, w)
                   | (Normal s, w) => (Normal (Some s), w)
                   end
               | None => (Normal None, w)
               end in
             match resolvedQuery with
             | Throw e => (Throw e, w)
             | Normal resolvedQuery =>
                 stringResult
                   (executeLocalAgent
                      (buildLocalAgentDef options resolvedSystemPrompt
                         resolvedQuery)
                      params ctx w)
             end
         end |}.

(** The text sent to the remote agent. *)
Definition remoteQuery (params : JsValue) : string :=
  match params with
  | JObject fields =>
      if hasField "query" fields
      then
        let q := lookupField "query" fields in
        toString (if notNullish q then q else JString "")
      else JSON_stringify params
  | _ => JSON_stringify params
  end.

Definition wrapRemoteAgentAsTool (def : RemoteAgentDefinition)
  : Tool.ToolDef World SessionContext :=
  {| Tool.name := remote_name def;
     Tool.description := remote_description def;
     Tool.sendErrorsToModel := Some true;
     Tool.action := fun params _ w =>
       match sendMessage (agentCardUrl def) (remoteQuery params) w with
       | (Throw e, w) => (Throw e, w)
       | (Normal result, w) =>
           (Normal (JString (extractTextFromResult result)), w)
       end |}.


End WithCore.

Arguments PromptString {World SessionContext} s.
Arguments PromptFunction {World SessionContext} f.

End SubAgent.

(** ** agent.ts *)

Module Agent.

Import Session.

Record SessionContext : Type := {
  ctx_sessionId : string;
  transcript : list Content;
  cwd : string;
  timestamp : string
}.

(** A tool call as the stream carries it; [args] may still be a string. *)
Record ToolCallRequestInfo : Type := {
  callId : string;
  call_name : string;
  args : JsValue;
  isClientInitiated : bool;
  prompt_id : string
}.

Inductive ServerGeminiStreamEvent : Type :=
| ContentEvent (value : string)
| ToolCallRequestEvent (value : ToolCallRequestInfo)
| OtherEvent (type : string) (value : JsValue).

Record ToolCallResponseInfo : Type := {
  response_callId : string;
  responseParts : list Part
}.

Record CompletedToolCall : Type := {
  request : ToolCallRequestInfo;
  response : ToolCallResponseInfo
}.

(** What one consumption of the generator did, in order. *)
Inductive Step : Type :=
| ResolveInstructions (ctx : SessionContext) (resolved : Completion string)
| SendMessageStream (request : list Part)
| Yield (event : ServerGeminiStreamEvent)
| ScheduleAgentTools (toolCalls : list ToolCallRequestInfo)
    (completedCalls : Completion (list CompletedToolCall)).

Inductive Outcome : Type :=
| Returned
| Rejected (e : Thrown)
| Running.

(** A call of the instructions function; one that returned. *)
Definition isResolve (s : Step) : bool :=
  match s with
  | ResolveInstructions _ _ => true
  | _ => false
  end.

Definition isResolved (s : Step) : bool :=
  match s with
  | ResolveInstructions _ (Normal _) => true
  | _ => false
  end.

(** No call of the instructions function among [steps]. *)
Definition quiet (steps : list Step) : bool :=
  forallb (fun s => negb (isResolve s)) steps.

(** Once a call has returned, no further call follows. *)
Fixpoint settled (steps : list Step) : bool :=
  match steps with
  | [] => true
  | s :: rest => if isResolved s then quiet rest else settled rest
  end.

Section WithCore.

Variable World : Type.

Inductive Instructions : Type :=
| InstructionString (s : string)
| InstructionFunction
    (f : SessionContext -> World -> Completion string * World).

Record GeminiAgent : Type := {
  instructions : Instructions;
  instructionsLoaded : bool
}.

Definition newGeminiAgent (instructions : Instructions) : GeminiAgent :=
  {| instructions := instructions; instructionsLoaded := false |}.

(** The core configuration and client, as the calls [sendStream] makes:
    [this.initialize()] (whose body is calls on the core only),
    [config.getSessionId()], [config.getWorkingDir()],
    [new Date().toISOString()], [client.getHistory()],
    [config.setUserMemory], [client.updateSystemInstruction()],
    [client.sendMessageStream] (the events read before the stream ends or
    fails), [scheduleAgentTools] with the registry scoped to a context,
    and [JSON.parse]. *)
Variable initialize : World -> Completion unit * World.
Variable getSessionId : World -> string.
Variable getWorkingDir : World -> string.
Variable toISOString : World -> string.
Variable getHistory : World -> list Content.
Variable setUserMemory : string -> World -> World.
Variable updateSystemInstruction : World -> World.
Variable sendMessageStream :
  list Part -> World ->
  list ServerGeminiStreamEvent * option Thrown * World.
Variable scheduleAgentTools :
  list ToolCallRequestInfo -> SessionContext -> World ->
  Completion (list CompletedToolCall) * World.
Variable JSON_parse : string -> Completion JsValue.

Definition buildContext (sessionId : string) (w : World) : SessionContext :=
  {| ctx_sessionId := sessionId;
     transcript := getHistory w;
     cwd := getWorkingDir w;
     timestamp := toISOString w |}.

Definition resolveInstructions (agent : GeminiAgent) (ctx : SessionContext)
  (w : World) : list Step * Completion unit * GeminiAgent * World :=
  match instructions agent with
  | InstructionString _ => ([], Normal tt, agent, w)
  | InstructionFunction f =>
      match f ctx w with
      | (Throw e, w) =>
          ([ResolveInstructions ctx (Throw e)], Throw e, agent, w)
      | (Normal resolved, w) =>
          let w := setUserMemory resolved w in
          let w := updateSystemInstruction w in
          ([ResolveInstructions ctx (Normal resolved)], Normal tt,
           {| instructions := instructions agent;
              instructionsLoaded := true |}, w)
      end
  end.

Fixpoint extractToolCalls (events : list ServerGeminiStreamEvent)
  (sessionId : string) : Completion (list ToolCallRequestInfo) :=
  match events with
  | [] => Normal []
  | ToolCallRequestEvent toolCall :: rest =>
      args <- match args toolCall with
              | JString s => JSON_parse s
              | a => Normal a
              end ;;
      calls <- extractToolCalls rest sessionId ;;
      Normal ({| callId := callId toolCall;
                 call_name := call_name toolCall;
                 args := args;
                 isClientInitiated := false;
                 prompt_id := sessionId |} :: calls)
  | _ :: rest => extractToolCalls rest sessionId
  end.

Definition functionResponses (completedCalls : list CompletedToolCall)
  : list Part :=
  flat_map (fun call => responseParts (response call)) completedCalls.

(** The [while (true)] loop; [fuel] bounds the rounds that are run, and
    [Running] says the loop had not ended within them. *)
Fixpoint turnLoop (fuel : nat) (sessionId : string) (request : list Part)
  (w : World) : list Step * Outcome * World :=
  match fuel with
  | O => ([], Running, w)
  | S fuel =>
      let '(events, failure, w) := sendMessageStream request w in
      let steps := SendMessageStream request :: List.map Yield events in
      match failure with
      | Some e => (steps, Rejected e, w)
      | None =>
          match extractToolCalls events sessionId with
          | Throw e => (steps, Rejected e, w)
          | Normal [] => (steps, Returned, w)
          | Normal toolCalls =>
              let ctx := buildContext sessionId w in
              match scheduleAgentTools toolCalls ctx w with
              | (Throw e, w) =>
                  (steps ++ [ScheduleAgentTools toolCalls (Throw e)],
                   Rejected e, w)
              | (Normal completedCalls, w) =>
                  let request := functionResponses completedCalls in
                  let '(later, outcome, w) :=
                    turnLoop fuel sessionId request w in
                  (steps
                     ++ ScheduleAgentTools toolCalls (Normal completedCalls)
                     :: later,
                   outcome, w)
              end
          end
      end
  end.

Definition sendStream (fuel : nat) (prompt : string) (agent : GeminiAgent)
  (w : World) : list Step * Outcome * GeminiAgent * World :=
  match initialize w with
  | (Throw e, w) => ([], Rejected e, agent, w)
  | (Normal _, w) =>
      let sessionId := getSessionId w in
      let request := [textPart prompt] in
      let '(resolving, resolved, agent, w) :=
        if negb (instructionsLoaded agent)
        then resolveInstructions agent (buildContext sessionId w) w
        else ([], Normal tt, agent, w) in
      match resolved with
      | Throw e => (resolving, Rejected e, agent, w)
      | Normal _ =>
          let '(steps, outcome, w) := turnLoop fuel sessionId request w in
          (resolving ++ steps, outcome, agent, w)
      end
  end.


End WithCore.

Arguments InstructionString {World} s.
Arguments InstructionFunction {World} f.
Arguments instructions {World} _.
Arguments instructionsLoaded {World} _.
Arguments Build_GeminiAgent {World} _ _.
Arguments newGeminiAgent {World} instructions.

End Agent.

(** ** Sample data

    Concrete settings on which the properties of Part II are run. *)

Module SessionSamples.

Import Session.

(** File names compared code unit by code unit, a parser that accepts one
    text, and a directory with a well-formed record, a truncated one and a
    file that is no session record.  The well-formed record is the JSON
    text of a session with a user entry and a model entry. *)

Definition quoted (s : string) : string :=
  (String (ascii_of_nat 34) s ++ String (ascii_of_nat 34) EmptyString)%string.

Definition recordText : string :=
  ("{" ++ quoted "sessionId" ++ ":" ++ quoted "s-1"
     ++ "," ++ quoted "startTime" ++ ":" ++ quoted "2025-01-01T00:00:00Z"
     ++ "," ++ quoted "lastUpdated" ++ ":" ++ quoted "2025-01-01T00:05:00Z"
     ++ "," ++ quoted "messages" ++ ":["
     ++ "{" ++ quoted "type" ++ ":" ++ quoted "user"
     ++ "," ++ quoted "content" ++ ":" ++ quoted "remember X" ++ "},"
     ++ "{" ++ quoted "type" ++ ":" ++ quoted "gemini"
     ++ "," ++ quoted "content" ++ ":" ++ quoted "Noted." ++ "}]}")%string.

Definition codeUnitCompare (a b : string) : Z :=
  match OrdersEx.String_as_OT.compare a b with
  | Lt => (-1)%Z
  | Eq => 0%Z
  | Gt => 1%Z
  end.

Definition sampleParse (raw : string) : Completion JsValue :=
  if raw =? recordText
  then Normal (JObject [("sessionId", JString "s-1");
                        ("startTime", JString "2025-01-01T00:00:00Z");
                        ("lastUpdated", JString "2025-01-01T00:05:00Z");
                        ("messages",
                         JArray [JObject [("type", JString "user");
                                          ("content", JString "remember X")];
                                 JObject [("type", JString "gemini");
                                          ("content", JString "Noted.")]])])
  else Throw (ThrownError "Unexpected end of JSON input").

Definition sampleJoin (a b : string) : string := (a ++ "/" ++ b)%string.

Definition sampleFs : FileSystem :=
  {| readdir := fun _ =>
       Normal ["session-2025-01-01.json"; "notes.txt";
               "session-2025-02-01.json"];
     readFile := fun path =>
       if path =? "/tmp/project/chats/session-2025-01-01.json"
       then Normal recordText
       else Normal "{ sessionId: " |}.

End SessionSamples.

Module ToolSamples.

Import Tool.

(** A tool that does not opt in to error reporting and throws a
    [ToolError]. *)

Definition lookupTool : ToolDef unit unit :=
  defineTool "lookup" "Look a key up" None
    (fun _ _ w => (Throw (newToolError "no such key"), w)).

(** The tools of the samples return strings or throw, so none of their
    runs reaches [JSON.stringify]; where a run must be given one, it is
    one that has no text for any value. *)
Definition unreached (_ : JsValue) : Completion (option string) :=
  Normal None.

End ToolSamples.

Module SubAgentSamples.

Import SubAgent.

(** A local agent whose executor runs out of turns, with the runtime model
    configurations as the world; and a remote answer that is a task with
    no status message. *)

Definition researcher : LocalAgentDefinition :=
  {| name := "researcher";
     description := "Looks things up";
     systemPrompt := "You research.";
     query := None;
     model := "inherit";
     maxTurns := Some 3%Z;
     maxTimeMinutes := None;
     tools := None |}.

Definition registry : Type := list (string * string).

Definition outOfTurns (_ : LocalAgentDefinition) (_ : JsValue) (w : registry)
  : Completion OutputObject * registry :=
  (Normal {| result := "so far"; terminate_reason := "MAX_TURNS" |}, w).

Definition quietTask : SendMessageResult :=
  ResultTask
    {| task_id := "task-1";
       status := Some {| state := "completed"; status_message := None |} |}.

End SubAgentSamples.

Module AgentSamples.

Import Session Agent.

(** The backend, counted by the streams it has served: the first stream
    asks for one tool call, every later one only answers.  The scheduler
    answers every call with the parts it is given.  The call's arguments
    come as the JSON text of an object with the one field text. *)

Definition noteArgs : string :=
  ("{" ++ SubAgent.doubleQuote ++ "text" ++ SubAgent.doubleQuote ++ ":"
     ++ SubAgent.doubleQuote ++ "X" ++ SubAgent.doubleQuote ++ "}")%string.

Definition saveNote : ToolCallRequestInfo :=
  {| callId := "call-1";
     call_name := "save_note";
     args := JString noteArgs;
     isClientInitiated := false;
     prompt_id := "" |}.

Definition sampleStream (_ : list Part) (served : nat)
  : list ServerGeminiStreamEvent * option Thrown * nat :=
  match served with
  | O => ([ContentEvent "Noting."; ToolCallRequestEvent saveNote], None, 1%nat)
  | S _ => ([ContentEvent "Saved."], None, S served)
  end.

Definition sampleSchedule (answer : list Part)
  (toolCalls : list ToolCallRequestInfo) (_ : SessionContext) (served : nat)
  : Completion (list CompletedToolCall) * nat :=
  (Normal
     (List.map
        (fun call =>
           {| request := call;
              response := {| response_callId := callId call;
                             responseParts := answer |} |})
        toolCalls),
   served).

(** [JSON.parse] on the one text the samples parse: the note's arguments
    give the object they spell.  Every other text is refused with a
    SyntaxError, as the texts that are no JSON are. *)
Definition sampleArgs (s : string) : Completion JsValue :=
  if s =? noteArgs then Normal (JObject [("text", JString "X")])
  else Throw (ThrownError "Unexpected token in JSON").

Definition sampleLoop (answer : list Part) :=
  turnLoop nat (fun _ => "/work") (fun _ => "2025-01-01T00:00:00.000Z")
    (fun _ => []) sampleStream (sampleSchedule answer) sampleArgs.

Definition sampleSend (answer : list Part) :=
  sendStream nat (fun served => (Normal tt, served)) (fun _ => "session-1")
    (fun _ => "/work") (fun _ => "2025-01-01T00:00:00.000Z") (fun _ => [])
    (fun _ served => served) (fun served => served)
    sampleStream (sampleSchedule answer) sampleArgs.


Definition saved : Part :=
  JObject [("functionResponse",
            JObject [("id", JString "call-1");
                     ("name", JString "save_note");
                     ("response", JObject [("output", JString "saved")])])].

Definition stored : Part :=
  JObject [("functionResponse",
            JObject [("id", JString "call-1");
                     ("name", JString "save_note");
                     ("response",
                      JObject [("output", JString "stored as note 7")])])].

Definition saveNoteCall : ToolCallRequestInfo :=
  {| callId := "call-1";
     call_name := "save_note";
     args := JObject [("text", JString "X")];
     isClientInitiated := false;
     prompt_id := "session-1" |}.

Definition saveNoteDone (answer : list Part) : CompletedToolCall :=
  {| request := saveNoteCall;
     response := {| response_callId := "call-1"; responseParts := answer |} |}.

End AgentSamples.

(** ** agent.ts: the registry scoped to a round *)

Module Registry.

Section WithWorld.

Variable World : Type.
Variable SessionContext : Type.

(** What [getTool] may return: a tool of this package, or one of the
    core's own (which [instanceof SdkTool] tells apart). *)
Inductive RegisteredTool : Type :=
| SdkEntry (tool : Tool.SdkTool World SessionContext)
| CoreEntry (coreTool : string).

(** The registry as its [getTool]; [None] is [undefined]. *)
Definition ToolRegistry : Type := string -> option RegisteredTool.

Definition buildScopedRegistry (originalRegistry : ToolRegistry)
  (ctx : SessionContext) : ToolRegistry :=
  fun name =>
    match originalRegistry name with
    | Some (SdkEntry tool) => Some (SdkEntry (Tool.withContext tool ctx))
    | tool => tool
    end.

End WithWorld.

Arguments SdkEntry {World SessionContext} tool.
Arguments CoreEntry {World SessionContext} coreTool.
Arguments buildScopedRegistry {World SessionContext} originalRegistry ctx.

End Registry.

(** ** subagent.ts: the schema handed to the core for a sub-agent's input *)

Module Schema.

(** A field of a Zod object shape, as far as [zodToJsonSchemaSimple] looks
    at it: its description and whether it is a [ZodOptional]. *)
Record ZodType : Type := {
  zod_description : option string;
  zod_optional : bool
}.

(** [obj[key] = value] on the own fields of a plain object: the field is
    replaced where it is, or added at the end. *)
Fixpoint assignField (key : string) (value : JsValue)
  (fields : list (string * JsValue)) : list (string * JsValue) :=
  match fields with
  | [] => [(key, value)]
  | (k, v) :: rest =>
      if k =? key then (k, value) :: rest
      else (k, v) :: assignField key value rest
  end.

(** Assigning to the key __proto__ goes to the setter of
    [Object.prototype]: it changes the prototype and adds no field. *)
Definition setField (key : string) (value : JsValue)
  (fields : list (string * JsValue)) : list (string * JsValue) :=
  if key =? "__proto__" then fields else assignField key value fields.

Definition describedAs (z : ZodType) : bool :=
  match zod_description z with
  | Some d => negb (d =? "")
  | None => false
  end.

Definition propertyOf (z : ZodType) : JsValue :=
  JObject
    (("type", JString "string")
       :: match zod_description z with
          | Some d =>
              if negb (d =? "") then [("description", JString d)] else []
          | None => []
          end).

(** The loop over [Object.entries(shape)], the shape's own fields in
    property order: the properties and the required keys gathered so
    far. *)
Definition schemaStep
  (acc : list (string * JsValue) * list string) (entry : string * ZodType)
  : list (string * JsValue) * list string :=
  let '(properties, required) := acc in
  let '(key, zodType) := entry in
  let prop := propertyOf zodType in
  let required :=
    if zod_optional zodType then required else required ++ [key] in
  (setField key prop properties, required).

Definition zodToJsonSchemaSimple (entries : list (string * ZodType))
  : JsValue :=
  let '(properties, required) := fold_left schemaStep entries ([], []) in
  JObject
    ([("type", JString "object"); ("properties", JObject properties)]
       ++ if (0 <? List.length required)%nat
          then [("required", JArray (List.map JString required))]
          else []).

End Schema.

(** ** context.ts *)

Module Context.

Record ShellOptions : Type := {
  env : option (list (string * string));
  timeout : option Z;
  opt_cwd : option string
}.

Record ShellResult : Type := {
  exitCode : option Z;
  stdout : string;
  stderr : string;
  shell_error : option Thrown
}.

(** [if (error)] on the validator's [string | null]. *)
Definition refused (error : option string) : bool :=
  match error with
  | Some message => negb (message =? "")
  | None => false
  end.

Section WithWorld.

Variable World : Type.

(** The core configuration and node, as the calls made on them:
    [config.validatePathAccess(path, mode)], [fs.readFile],
    [fs.writeFile], [config.getWorkingDir()], building the shell tool's
    invocation and asking it [shouldConfirmExecute] (the confirmation
    details, or [false]), and [ShellExecutionService.execute] followed by
    the handle's result (output and exit code). *)
Variable validatePathAccess : string -> string -> World -> option string.
Variable fs_readFile : string -> World -> Completion string.
Variable fs_writeFile : string -> string -> World -> Completion unit * World.
Variable getWorkingDir : World -> string.
Variable shouldConfirmExecute : string -> string -> World -> Completion JsValue.
Variable executeShell :
  string -> string -> World -> Completion (string * option Z) * World.

(** [AgentFsImpl.readFile]; [None] is [null]. *)
Definition readFile (path : string) (w : World) : option string :=
  let error := validatePathAccess path "read" w in
  if refused error then None
  else match fs_readFile path w with
       | Normal content => Some content
       | Throw _ => None
       end.

(** [AgentFsImpl.writeFile] *)
Definition writeFile (path content : string) (w : World)
  : Completion unit * World :=
  let error := validatePathAccess path "write" w in
  if refused error
  then (Throw (ThrownError match error with
                           | Some message => message
                           | None => ""
                           end), w)
  else fs_writeFile path content w.

Definition canExecute (command cwd : string) (w : World) : bool :=
  match shouldConfirmExecute command cwd w with
  | Normal confirmation => negb (truthy confirmation)
  | Throw _ => false
  end.

Definition blockedResult : ShellResult :=
  {| exitCode := Some 1%Z;
     stdout := "";
     stderr :=
       "Command execution requires confirmation but no interactive session is available.";
     shell_error := Some (ThrownError "Command blocked by policy") |}.

(** [AgentShellImpl.exec] *)
Definition exec (command : string) (options : option ShellOptions)
  (w : World) : Completion ShellResult * World :=
  let cwd :=
    match options with
    | Some o =>
        match opt_cwd o with
        | Some dir => dir
        | None => getWorkingDir w
        end
    | None => getWorkingDir w
    end in
  let allowed := canExecute command cwd w in
  if negb allowed then (Normal blockedResult, w)
  else
    match executeShell command cwd w with
    | (Throw e, w) => (Throw e, w)
    | (Normal (output, code), w) =>
        (Normal {| exitCode := code;
                   stdout := output;
                   stderr := "";
                   shell_error := None |}, w)
    end.

End WithWorld.

End Context.

(** ** logger.ts *)

Module Logger.

Inductive LogLevel : Type :=
| LevelSilent | LevelError | LevelWarn | LevelInfo | LevelDebug.

Definition LOG_LEVEL_ORDER (level : LogLevel) : Z :=
  match level with
  | LevelSilent => 0
  | LevelError => 1
  | LevelWarn => 2
  | LevelInfo => 3
  | LevelDebug => 4
  end.

Section WithHandlers.

(** A log function; binding it to its destination is left out. *)
Variable Handler : Type.
Variable noop : Handler.

(** A destination: each method may be missing. *)
Record Logger : Type := {
  log : option Handler;
  warn : option Handler;
  error : option Handler;
  debug : option Handler
}.

(** The global [console]. *)
Variable console : Logger.

(** The core's [debugLogger] after the patch. *)
Record DebugLogger : Type := {
  debugLogger_log : Handler;
  debugLogger_warn : Handler;
  debugLogger_error : Handler;
  debugLogger_debug : Handler
}.

(** [method ?? noop] *)
Definition orNoop (method : option Handler) : Handler :=
  match method with
  | Some h => h
  | None => noop
  end.

Definition patchCoreLogger (level : LogLevel) (logger : option Logger)
  : DebugLogger :=
  let threshold := LOG_LEVEL_ORDER level in
  let dest :=
    match logger with
    | Some l => l
    | None => console
    end in
  {| debugLogger_log :=
       if (LOG_LEVEL_ORDER LevelInfo <=? threshold)%Z
       then orNoop (log dest) else noop;
     debugLogger_warn :=
       if (LOG_LEVEL_ORDER LevelWarn <=? threshold)%Z
       then orNoop (warn dest) else noop;
     debugLogger_error :=
       if (LOG_LEVEL_ORDER LevelError <=? threshold)%Z
       then orNoop (error dest) else noop;
     debugLogger_debug :=
       if (LOG_LEVEL_ORDER LevelDebug <=? threshold)%Z
       then orNoop (debug dest) else noop |}.

End WithHandlers.

Arguments log {Handler} _.
Arguments warn {Handler} _.
Arguments error {Handler} _.
Arguments debug {Handler} _.
Arguments Build_Logger {Handler} _ _ _ _.
Arguments debugLogger_log {Handler} _.
Arguments debugLogger_warn {Handler} _.
Arguments debugLogger_error {Handler} _.
Arguments debugLogger_debug {Handler} _.
Arguments patchCoreLogger {Handler} noop console level logger.

End Logger.

(** ** agent.ts: terms in which the loop is described *)

Module AgentTerms.

Import Session Agent.

(** The tool-call requests among the events of a stream, in order. *)
Fixpoint requestsOf (events : list ServerGeminiStreamEvent)
  : list ToolCallRequestInfo :=
  match events with
  | [] => []
  | ToolCallRequestEvent toolCall :: rest => toolCall :: requestsOf rest
  | _ :: rest => requestsOf rest
  end.

(** A part that carries a function response. *)
Definition isFunctionResponse (p : Part) : bool :=
  match p with
  | JObject fields => hasField "functionResponse" fields
  | _ => false
  end.

Definition isStream (s : Step) : bool :=
  match s with
  | SendMessageStream _ => true
  | _ => false
  end.

Definition isSchedule (s : Step) : bool :=
  match s with
  | ScheduleAgentTools _ _ => true
  | _ => false
  end.

(** Every batch that completed is followed at once by the stream of its
    response parts, unless the steps end there; a batch that failed is
    the last step. *)
Fixpoint chained (steps : list Step) : Prop :=
  match steps with
  | [] => True
  | ScheduleAgentTools _ (Normal completedCalls) :: rest =>
      match rest with
      | [] => True
      | next :: _ =>
          next = SendMessageStream (functionResponses completedCalls)
      end
      /\ chained rest
  | ScheduleAgentTools _ (Throw _) :: rest => rest = []
  | _ :: rest => chained rest
  end.

(** Every batch scheduled is not empty and answers, call by call, the
    requests yielded since the stream before it started. *)
Fixpoint answered (pending : list ServerGeminiStreamEvent)
  (steps : list Step) : Prop :=
  match steps with
  | [] => True
  | SendMessageStream _ :: rest => answered [] rest
  | Yield event :: rest => answered (pending ++ [event]) rest
  | ScheduleAgentTools toolCalls _ :: rest =>
      toolCalls <> []
      /\ List.map callId toolCalls = List.map callId (requestsOf pending)
      /\ List.map call_name toolCalls
         = List.map call_name (requestsOf pending)
      /\ answered pending rest
  | ResolveInstructions _ _ :: rest => answered pending rest
  end.

(** What [extractToolCalls] does to the arguments of a request: a string
    is parsed, anything else is kept. *)
Definition argsDecoded (JSON_parse : string -> Completion JsValue)
  (asked made : ToolCallRequestInfo) : Prop :=
  match args asked with
  | JString s => JSON_parse s = Normal (args made)
  | a => args made = a
  end.

Definition argsDecodable (JSON_parse : string -> Completion JsValue)
  (asked : ToolCallRequestInfo) : Prop :=
  match args asked with
  | JString s => exists v, JSON_parse s = Normal v
  | _ => True
  end.

End AgentTerms.

(** ** session.ts: terms in which the history is described *)

Module SessionTerms.

Import Session.

(** The most turns an entry can give. *)
Definition yieldsTurns (msg : MessageRecord) : nat :=
  match msg_type msg with
  | MsgUser => 1
  | MsgGemini => 2
  | MsgInfo | MsgError | MsgWarning => 0
  end.

End SessionTerms.

Module SessionLawSamples.

Import Session SessionSamples.

(** The session the sample directory lists. *)
Definition sampleSession : SessionInfo :=
  {| sessionId := JString "s-1";
     filePath := "/tmp/project/chats/session-2025-01-01.json";
     startTime := JString "2025-01-01T00:00:00Z";
     lastUpdated := JString "2025-01-01T00:05:00Z";
     messageCount := JNumber 2;
     summary := JUndefined |}.

End SessionLawSamples.

Module ToolLawSamples.

Import Tool.


End ToolLawSamples.

(** ** subagent.ts: terms in which the bridge is described *)

Module SubAgentTerms.

Import SubAgent Schema.


(** The keys of the fields that are not optional, in the order of the
    shape. *)
Definition requiredKeys (entries : list (string * ZodType)) : list string :=
  List.map fst (filter (fun entry => negb (zod_optional (snd entry))) entries).

(** The fields that an assignment declares: all but one named
    __proto__. *)
Definition declared (entries : list (string * ZodType))
  : list (string * ZodType) :=
  filter (fun entry => negb (fst entry =? "__proto__")) entries.

End SubAgentTerms.

Module BridgeLawSamples.

Import SubAgent Schema SubAgentSamples.

(** A sub-agent whose system prompt is resolved from the call, and the
    shape of a sub-agent's input with one required and one optional
    field. *)
Definition dynamicOptions : SubAgentOptions registry unit :=
  {| opt_name := "researcher";
     opt_description := "Looks things up";
     opt_systemPrompt :=
       PromptFunction
         (fun params _ w =>
            (Normal ("Research " ++ toString params)%string, w));
     opt_query := None;
     opt_model := None;
     opt_maxTurns := Some 3%Z;
     opt_maxTimeMinutes := None;
     opt_tools := None |}.

Definition sampleShape : list (string * ZodType) :=
  [("topic", {| zod_description := Some "What to look up";
                zod_optional := false |});
   ("depth", {| zod_description := None; zod_optional := true |})].

End BridgeLawSamples.

(** ** context.ts: terms in which the shell is described *)

Module ContextTerms.

Import Context.

(** The directory a command is checked and run in: the option's, or the
    working directory. *)
Definition effectiveCwd {World : Type} (getWorkingDir : World -> string)
  (options : option ShellOptions) (w : World) : string :=
  match options with
  | Some {| opt_cwd := Some dir |} => dir
  | _ => getWorkingDir w
  end.

End ContextTerms.

(** ** logger.ts: terms in which the routing is described *)

Module LoggerTerms.

Import Logger.

(** Where routed channels go: the logger given, or the console. *)
Definition destination {Handler : Type} (console : Logger Handler)
  (logger : option (Logger Handler)) : Logger Handler :=
  match logger with
  | Some l => l
  | None => console
  end.

End LoggerTerms.

(** ** agent.ts: the session resumed by [initialize] *)

Module Resume.

Import Js Session.

(** *** The reconstruction on what [JSON.parse] gave

    [resumed.conversation.messages] is typed [MessageRecord[]], but it is
    whatever the session file held.  [historyOfJson] is
    [messageRecordsToHistory] as it runs on such a value: property reads
    that throw on [null] and [undefined], iteration that throws on what
    is not iterable, and a method call that throws where there is no
    such method. *)

(** [for (const x of v)]: an array gives its elements, a string gives
    strings (how many does not matter below), [undefined], [null],
    booleans, numbers and plain objects are not iterable. *)
Definition iterate (v : JsValue) : Completion (list JsValue) :=
  match v with
  | JArray items => Normal items
  | JString s =>
      Normal (List.map (fun c => JString (String c EmptyString))
                (list_ascii_of_string s))
  | _ => Throw (ThrownError "value is not iterable")
  end.

Fixpoint mapM {A B : Type} (f : A -> Completion B) (l : list A)
  : Completion (list B) :=
  match l with
  | [] => Normal []
  | x :: rest =>
      y <- f x ;;
      ys <- mapM f rest ;;
      Normal (y :: ys)
  end.

(** [{ functionCall: { id: tc.id, name: tc.name, args: tc.args } }] *)
Definition callPart (tc : JsValue) : Completion Part :=
  id <- getProp tc "id" ;;
  name <- getProp tc "name" ;;
  args <- getProp tc "args" ;;
  Normal (JObject [("functionCall",
                    JObject [("id", id); ("name", name); ("args", args)])]).

(** [items.some((tc) => tc.result != null)], which stops at the first
    hit. *)
Fixpoint anyResult (items : list JsValue) : Completion bool :=
  match items with
  | [] => Normal false
  | tc :: rest =>
      result <- getProp tc "result" ;;
      if notNullish result then Normal true else anyResult rest
  end.

(** [msg.toolCalls?.some(..)]: nothing for [undefined] and [null], the
    method for an array, and a TypeError for any other value, which has
    no such method. *)
Definition someResult (toolCalls : JsValue) : Completion bool :=
  match toolCalls with
  | JUndefined | JNull => Normal false
  | JArray items => anyResult items
  | _ => Throw (ThrownError "msg.toolCalls?.some is not a function")
  end.

(** The loop that gathers the response parts. *)
Fixpoint resultParts (items : list JsValue) : Completion (list Part) :=
  match items with
  | [] => Normal []
  | tc :: rest =>
      result <- getProp tc "result" ;;
      later <- resultParts rest ;;
      Normal ((if notNullish result then normalizeParts result else [])
                ++ later)
  end.

Definition isType (type : JsValue) (name : string) : bool :=
  match type with
  | JString s => s =? name
  | _ => false
  end.

(** One pass of the loop body on a raw entry. *)
Definition processJson (history : list Content) (msg : JsValue)
  : Completion (list Content) :=
  type <- getProp msg "type" ;;
  if isType type "info" || isType type "error" || isType type "warning"
  then Normal history
  else
    history <-
      (if isType type "user"
       then
         content <- getProp msg "content" ;;
         let parts := normalizeParts content in
         Normal (if (0 <? List.length parts)%nat
                 then history ++ [{| role := "user"; parts := parts |}]
                 else history)
       else Normal history) ;;
    if isType type "gemini"
    then
      content <- getProp msg "content" ;;
      toolCalls <- getProp msg "toolCalls" ;;
      callParts <-
        (if truthy toolCalls
         then items <- iterate toolCalls ;; mapM callPart items
         else Normal []) ;;
      let modelParts := normalizeParts content ++ callParts in
      let history :=
        if (0 <? List.length modelParts)%nat
        then history ++ [{| role := "model"; parts := modelParts |}]
        else history in
      answered <- someResult toolCalls ;;
      if answered
      then
        items <- iterate toolCalls ;;
        responseParts <- resultParts items ;;
        Normal (if (0 <? List.length responseParts)%nat
                then history ++ [{| role := "user"; parts := responseParts |}]
                else history)
      else Normal history
    else Normal history.

Fixpoint foldJson (history : list Content) (items : list JsValue)
  : Completion (list Content) :=
  match items with
  | [] => Normal history
  | msg :: rest =>
      history <- processJson history msg ;;
      foldJson history rest
  end.

Definition historyOfJson (messages : JsValue) : Completion (list Content) :=
  items <- iterate messages ;;
  foldJson [] items.

(** *** Values that have the declared type

    A raw value read as the [MessageRecord[]] it is declared to be, where
    it is one. *)

Definition readType (type : JsValue) : option MessageType :=
  if isType type "user" then Some MsgUser
  else if isType type "gemini" then Some MsgGemini
  else if isType type "info" then Some MsgInfo
  else if isType type "error" then Some MsgError
  else if isType type "warning" then Some MsgWarning
  else None.

Definition readToolCall (tc : JsValue) : option ToolCallRecord :=
  match tc with
  | JObject fields =>
      match lookupField "id" fields, lookupField "name" fields with
      | JString id, JString name =>
          Some {| tc_id := id;
                  tc_name := name;
                  tc_args := lookupField "args" fields;
                  tc_result := lookupField "result" fields |}
      | _, _ => None
      end
  | _ => None
  end.

Fixpoint readAll {A : Type} (read : JsValue -> option A)
  (items : list JsValue) : option (list A) :=
  match items with
  | [] => Some []
  | item :: rest =>
      match read item, readAll read rest with
      | Some x, Some xs => Some (x :: xs)
      | _, _ => None
      end
  end.

Definition readMessage (msg : JsValue) : option MessageRecord :=
  match msg with
  | JObject fields =>
      match readType (lookupField "type" fields) with
      | Some type =>
          match lookupField "toolCalls" fields with
          | JUndefined | JNull =>
              Some {| msg_type := type;
                      msg_content := lookupField "content" fields;
                      msg_toolCalls := None |}
          | JArray calls =>
              match readAll readToolCall calls with
              | Some tcs =>
                  Some {| msg_type := type;
                          msg_content := lookupField "content" fields;
                          msg_toolCalls := Some tcs |}
              | None => None
              end
          | _ => None
          end
      | None => None
      end
  | _ => None
  end.

Definition readMessages (messages : JsValue)
  : option (list MessageRecord) :=
  match messages with
  | JArray items => readAll readMessage items
  | _ => None
  end.

(** *** The resume block *)

Section WithCore.

Variable World : Type.
Variable SESSION_FILE_PREFIX : string.
Variable JSON_parse : string -> Completion JsValue.
Variable localeCompare : string -> string -> Z.
Variable path_join : string -> string -> string.
(** [client.resumeChat(history, resumed)] *)
Variable resumeChat :
  list Content -> JsValue * string -> World -> Completion unit * World.

(** [s.sessionId === this.resumeSessionId], the right side a string. *)
Definition hasSessionId (resumeSessionId : string) (s : SessionInfo)
  : bool :=
  match sessionId s with
  | JString id => id =? resumeSessionId
  | _ => false
  end.

(** [messageRecordsToHistory(resumed.conversation.messages)] *)
Definition resumedHistory (resumed : JsValue * string)
  : Completion (list Content) :=
  messages <- getProp (fst resumed) "messages" ;;
  historyOfJson messages.

(** The resume block of [initialize].  The files are the same for the
    listing and the load. *)
Definition resumeSession (resumeSessionId : option string)
  (projectTempDir : string) (fs : FileSystem) (w : World)
  : Completion unit * World :=
  match resumeSessionId with
  | None => (Normal tt, w)
  | Some id =>
      if id =? "" then (Normal tt, w)
      else
        let sessions :=
          listSessions SESSION_FILE_PREFIX JSON_parse localeCompare
            path_join projectTempDir fs in
        match find (hasSessionId id) sessions with
        | None => (Normal tt, w)
        | Some target =>
            match loadSession JSON_parse fs (filePath target) with
            | Throw e => (Throw e, w)
            | Normal resumed =>
                match resumedHistory resumed with
                | Throw e => (Throw e, w)
                | Normal history => resumeChat history resumed w
                end
            end
        end
  end.

End WithCore.

End Resume.


(** ** agent.ts and tool.ts: a round that runs a tool *)

Module TurnSamples.

Import Js Session Agent AgentSamples.

(** A note tool on a full disk: it has not opted in to error reporting
    and throws a plain [Error].  The backend asks for it once and then
    apologizes.  The scheduler runs every call through the registry
    scoped to the round and reports what an execution throws as that
    call's response, so that it does not throw itself. *)

Definition fullDisk : Tool.ToolDef nat SessionContext :=
  Tool.defineTool "save_note" "Save a note" None
    (fun _ _ w => (Throw (ThrownError "disk full"), w)).

Definition liveRegistry : Registry.ToolRegistry nat SessionContext :=
  fun name =>
    if name =? "save_note"
    then Some (Registry.SdkEntry (Tool.newSdkTool fullDisk))
    else None.

Definition functionResponse (call : ToolCallRequestInfo)
  (field text : string) : Part :=
  JObject [("functionResponse",
            JObject [("id", JString (callId call));
                     ("name", JString (call_name call));
                     ("response", JObject [(field, JString text)])])].

Definition answerWith (call : ToolCallRequestInfo) (field text : string)
  : CompletedToolCall :=
  {| request := call;
     response := {| response_callId := callId call;
                    responseParts := [functionResponse call field text] |} |}.

Definition runCall (ctx : SessionContext) (call : ToolCallRequestInfo)
  (w : nat) : CompletedToolCall * nat :=
  match Registry.buildScopedRegistry liveRegistry ctx (call_name call) with
  | Some (Registry.SdkEntry tool) =>
      match Tool.execute ToolSamples.unreached
              (Tool.createInvocation tool (args call) None) w with
      | (Normal toolResult, w) =>
          (answerWith call "output"
             match Tool.llmContent toolResult with
             | Some text => text
             | None => ""
             end, w)
      | (Throw e, w) => (answerWith call "error" (Tool.errorMessage e), w)
      end
  | _ => (answerWith call "error" "Tool not found", w)
  end.

Definition reportingSchedule (toolCalls : list ToolCallRequestInfo)
  (ctx : SessionContext) (w : nat)
  : Completion (list CompletedToolCall) * nat :=
  let '(completedCalls, w) :=
    fold_left
      (fun '(done, w) call =>
         let '(completed, w) := runCall ctx call w in
         (done ++ [completed], w))
      toolCalls ([], w) in
  (Normal completedCalls, w).

Definition apologyStream (_ : list Part) (served : nat)
  : list ServerGeminiStreamEvent * option Thrown * nat :=
  match served with
  | O => ([ToolCallRequestEvent saveNote], None, 1%nat)
  | S _ => ([ContentEvent "I could not save it."], None, S served)
  end.

Definition fullDiskSend :=
  sendStream nat (fun served => (Normal tt, served)) (fun _ => "session-1")
    (fun _ => "/work") (fun _ => "2025-01-01T00:00:00.000Z") (fun _ => [])
    (fun _ served => served) (fun served => served)
    apologyStream reportingSchedule sampleArgs.


End TurnSamples.


(* ===================================================================== *)
(** * Part II : properties                                                *)
(* ===================================================================== *)

(** ** The session history store *)

Module SessionFacts.

Import Session SessionSamples.

Lemma push_each {A B : Type} (f : A -> B) (l : list A) (init : list B) :
  fold_left (fun acc x => acc ++ [f x]) l init = init ++ List.map f l.
Proof.
  revert init. induction l as [|x l IH]; intros init; simpl.
  - now rewrite app_nil_r.
  - rewrite IH, <- app_assoc. reflexivity.
Qed.

Lemma push_spread {A B : Type} (keep : A -> bool) (g : A -> list B)
  (l : list A) (init : list B) :
  fold_left (fun acc x => if keep x then acc ++ g x else acc) l init
  = init ++ flat_map (fun x => if keep x then g x else []) l.
Proof.
  revert init. induction l as [|x l IH]; intros init; simpl.
  - now rewrite app_nil_r.
  - rewrite IH. destruct (keep x); simpl.
    + now rewrite <- app_assoc.
    + reflexivity.
Qed.

Lemma push_turn (history : list Content) (r : string) (ps : list Part) :
  (if (0 <? List.length ps)%nat
   then history ++ [{| role := r; parts := ps |}]
   else history) = history ++ turn r ps.
Proof.
  destruct ps; simpl; [now rewrite app_nil_r | reflexivity].
Qed.

Lemma no_result_no_parts (tcs : list ToolCallRecord) :
  existsb (fun tc => notNullish (tc_result tc)) tcs = false ->
  flat_map
    (fun tc =>
       if notNullish (tc_result tc) then normalizeParts (tc_result tc)
       else []) tcs = [].
Proof.
  induction tcs as [|tc tcs IH]; simpl; [reflexivity|].
  intros H. apply orb_false_iff in H. destruct H as [H1 H2].
  rewrite H1. simpl. now apply IH.
Qed.

(** The loop body appends exactly the entry's turns. *)
Lemma processMessage_entryTurns (history : list Content) (msg : MessageRecord) :
  processMessage history msg = history ++ entryTurns msg.
Proof.
  unfold processMessage, entryTurns, modelPartsOf, resultPartsOf, toolCallsOf.
  destruct (msg_type msg); try (now rewrite app_nil_r).
  - apply push_turn.
  - destruct (msg_toolCalls msg) as [tcs|]; simpl.
    + rewrite push_each.
      destruct (existsb (fun tc => notNullish (tc_result tc)) tcs) eqn:E.
      * rewrite push_spread, !push_turn. simpl. now rewrite app_assoc.
      * rewrite push_turn, (no_result_no_parts tcs E). simpl.
        now rewrite app_nil_r.
    + rewrite push_turn, !app_nil_r. reflexivity.
Qed.

Lemma fold_processMessage (msgs : list MessageRecord) (history : list Content) :
  fold_left processMessage msgs history = history ++ flat_map entryTurns msgs.
Proof.
  revert history. induction msgs as [|m msgs IH]; intros history; simpl.
  - now rewrite app_nil_r.
  - rewrite IH, processMessage_entryTurns, <- app_assoc. reflexivity.
Qed.

Lemma history_flat_map (msgs : list MessageRecord) :
  messageRecordsToHistory msgs = flat_map entryTurns msgs.
Proof. unfold messageRecordsToHistory. now rewrite fold_processMessage. Qed.

Lemma history_app (a b : list MessageRecord) :
  messageRecordsToHistory (a ++ b)
  = messageRecordsToHistory a ++ messageRecordsToHistory b.
Proof. rewrite !history_flat_map. apply flat_map_app. Qed.

Lemma history_cons (m : MessageRecord) (msgs : list MessageRecord) :
  messageRecordsToHistory (m :: msgs)
  = entryTurns m ++ messageRecordsToHistory msgs.
Proof. rewrite !history_flat_map. reflexivity. Qed.

Lemma turn_parts (r : string) (ps : list Part) :
  Forall (fun c => parts c <> []) (turn r ps).
Proof.
  destruct ps; simpl; constructor; simpl; [discriminate | constructor].
Qed.

Lemma entryTurns_parts (msg : MessageRecord) :
  Forall (fun c => parts c <> []) (entryTurns msg).
Proof.
  unfold entryTurns. destruct (msg_type msg); try constructor.
  - apply turn_parts.
  - apply Forall_app; split; apply turn_parts.
Qed.

Lemma normalizeParts_falsy (content : JsValue) :
  truthy content = false -> normalizeParts content = [].
Proof. intros H. unfold normalizeParts. now rewrite H. Qed.

(** C10. Every turn emitted by [messageRecordsToHistory] has a non-empty
    parts array: a user entry whose content normalizes to zero parts
    produces no user turn, a model entry with no content part and no tool
    call produces no model turn, and empty or absent content normalizes to
    zero parts. *)
Theorem C10_emitted_turns_have_parts :
  (forall msgs : list MessageRecord,
     Forall (fun c => parts c <> []) (messageRecordsToHistory msgs))
  /\ (forall (pre post : list MessageRecord) (msg : MessageRecord),
        msg_type msg = MsgUser ->
        normalizeParts (msg_content msg) = [] ->
        messageRecordsToHistory (pre ++ msg :: post)
        = messageRecordsToHistory pre ++ messageRecordsToHistory post)
  /\ (forall (pre post : list MessageRecord) (msg : MessageRecord),
        msg_type msg = MsgGemini ->
        normalizeParts (msg_content msg) = [] ->
        toolCallsOf msg = [] ->
        messageRecordsToHistory (pre ++ msg :: post)
        = messageRecordsToHistory pre ++ messageRecordsToHistory post)
  /\ normalizeParts JUndefined = []
  /\ normalizeParts JNull = []
  /\ normalizeParts (JString "") = []
  /\ normalizeParts (JArray []) = [].
Proof.
  split; [|split; [|split]].
  - intros msgs. rewrite history_flat_map.
    induction msgs as [|m msgs IH]; simpl.
    + constructor.
    + apply Forall_app. split; [apply entryTurns_parts | exact IH].
  - intros pre post msg Hty Hnone.
    rewrite history_app, history_cons. unfold entryTurns.
    now rewrite Hty, Hnone.
  - intros pre post msg Hty Hnone Hcalls.
    rewrite history_app, history_cons.
    unfold entryTurns, modelPartsOf, resultPartsOf.
    now rewrite Hty, Hnone, Hcalls.
  - repeat split; reflexivity.
Qed.

(** A user entry with an empty string as content, between two entries
    that do yield turns, leaves no turn of its own. *)
Lemma C10_emitted_turns_have_parts_witness :
  messageRecordsToHistory
    ([{| msg_type := MsgUser; msg_content := JString "first";
         msg_toolCalls := None |}]
       ++ {| msg_type := MsgUser; msg_content := JString "";
             msg_toolCalls := None |}
       :: [{| msg_type := MsgGemini; msg_content := JString "reply";
              msg_toolCalls := None |}])
  = messageRecordsToHistory
      [{| msg_type := MsgUser; msg_content := JString "first";
          msg_toolCalls := None |}]
    ++ messageRecordsToHistory
         [{| msg_type := MsgGemini; msg_content := JString "reply";
             msg_toolCalls := None |}].
Proof.
  apply (proj1 (proj2 C10_emitted_turns_have_parts)); reflexivity.
Defined.

Lemma annotations_no_turn (msgs : list MessageRecord) :
  forallb isAnnotation msgs = true -> messageRecordsToHistory msgs = [].
Proof.
  rewrite history_flat_map.
  induction msgs as [|m msgs IH]; simpl; [reflexivity|].
  intros H. apply andb_true_iff in H. destruct H as [Hm Hrest].
  rewrite (IH Hrest), app_nil_r.
  unfold isAnnotation in Hm. unfold entryTurns.
  destruct (msg_type m); (reflexivity || discriminate).
Qed.

Lemma turn_some (r : string) (ps : list Part) :
  ps <> [] -> turn r ps = [{| role := r; parts := ps |}].
Proof. destruct ps; [congruence | reflexivity]. Qed.

(** C6, as stated, fails on a record whose one user message, or whose
    one model message, has the empty string as content: the other turn is
    the only turn. *)
Lemma C6_counterexample_empty_content :
  messageRecordsToHistory
    [{| msg_type := MsgUser; msg_content := JString "";
        msg_toolCalls := None |};
     {| msg_type := MsgGemini; msg_content := JString "Hello";
        msg_toolCalls := Some [] |}]
  = [{| role := "model"; parts := [textPart "Hello"] |}]
  /\ messageRecordsToHistory
       [{| msg_type := MsgUser; msg_content := JString "Hi";
           msg_toolCalls := None |};
        {| msg_type := MsgGemini; msg_content := JString "";
           msg_toolCalls := None |}]
     = [{| role := "user"; parts := [textPart "Hi"] |}].
Proof. split; reflexivity. Qed.

(** C6, amended. [messageRecordsToHistory] drops every informational,
    warning and error entry; and a record holding, besides such entries,
    exactly one user message followed by one model message with zero tool
    calls, each with content that normalizes to at least one part, yields
    exactly two turns: the user-role turn, then the model-role turn, and
    no response turn. *)
Theorem C6_drops_annotations_user_then_model :
  (forall msgs : list MessageRecord,
     messageRecordsToHistory msgs
     = messageRecordsToHistory
         (filter (fun m => negb (isAnnotation m)) msgs))
  /\ (forall (pre mid post : list MessageRecord) (u g : MessageRecord),
        forallb isAnnotation pre = true ->
        forallb isAnnotation mid = true ->
        forallb isAnnotation post = true ->
        msg_type u = MsgUser ->
        msg_type g = MsgGemini ->
        toolCallsOf g = [] ->
        normalizeParts (msg_content u) <> [] ->
        normalizeParts (msg_content g) <> [] ->
        messageRecordsToHistory (pre ++ u :: mid ++ g :: post)
        = [{| role := "user"; parts := normalizeParts (msg_content u) |};
           {| role := "model"; parts := normalizeParts (msg_content g) |}]).
Proof.
  split.
  - intros msgs. rewrite !history_flat_map.
    induction msgs as [|m msgs IH]; simpl; [reflexivity|].
    destruct (isAnnotation m) eqn:E; simpl.
    + rewrite <- IH. unfold isAnnotation in E. unfold entryTurns.
      destruct (msg_type m); (reflexivity || discriminate).
    + now rewrite IH.
  - intros pre mid post u g Hpre Hmid Hpost Hu Hg Hcalls Hup Hgp.
    rewrite history_app, history_cons, history_app, history_cons.
    rewrite (annotations_no_turn pre Hpre), (annotations_no_turn mid Hmid),
      (annotations_no_turn post Hpost).
    unfold entryTurns, modelPartsOf, resultPartsOf.
    rewrite Hu, Hg, Hcalls. simpl. rewrite !app_nil_r.
    rewrite (turn_some "user" _ Hup), (turn_some "model" _ Hgp).
    reflexivity.
Qed.

(** A greeting and its answer among three annotations: two turns. *)
Lemma C6_drops_annotations_user_then_model_witness :
  messageRecordsToHistory
    ([{| msg_type := MsgInfo; msg_content := JString "session started";
         msg_toolCalls := None |}]
       ++ {| msg_type := MsgUser; msg_content := JString "Hi";
             msg_toolCalls := None |}
       :: [{| msg_type := MsgWarning; msg_content := JString "slow";
              msg_toolCalls := None |}]
       ++ {| msg_type := MsgGemini;
             msg_content := JArray [JString "Hello"];
             msg_toolCalls := Some [] |}
       :: [{| msg_type := MsgError; msg_content := JString "quota";
              msg_toolCalls := None |}])
  = [{| role := "user"; parts := [textPart "Hi"] |};
     {| role := "model"; parts := [textPart "Hello"] |}].
Proof.
  apply (proj2 C6_drops_annotations_user_then_model
           [{| msg_type := MsgInfo; msg_content := JString "session started";
               msg_toolCalls := None |}]
           [{| msg_type := MsgWarning; msg_content := JString "slow";
               msg_toolCalls := None |}]
           [{| msg_type := MsgError; msg_content := JString "quota";
               msg_toolCalls := None |}]
           {| msg_type := MsgUser; msg_content := JString "Hi";
              msg_toolCalls := None |}
           {| msg_type := MsgGemini;
              msg_content := JArray [JString "Hello"];
              msg_toolCalls := Some [] |});
    try reflexivity; simpl; discriminate.
Defined.

Lemma resultPartsOf_filter (msg : MessageRecord) :
  resultPartsOf msg
  = concat
      (List.map (fun tc => normalizeParts (tc_result tc))
         (filter (fun tc => notNullish (tc_result tc)) (toolCallsOf msg))).
Proof.
  unfold resultPartsOf.
  induction (toolCallsOf msg) as [|tc tcs IH]; simpl; [reflexivity|].
  destruct (notNullish (tc_result tc)); simpl; now rewrite IH.
Qed.

Lemma result_part_in (msg : MessageRecord) (tc : ToolCallRecord) (p : Part) :
  In tc (toolCallsOf msg) ->
  notNullish (tc_result tc) = true ->
  In p (normalizeParts (tc_result tc)) ->
  In p (resultPartsOf msg).
Proof.
  intros Htc Hres Hp. unfold resultPartsOf. apply in_flat_map.
  exists tc. split; [exact Htc | now rewrite Hres].
Qed.

Lemma nonempty_of_In {A : Type} (x : A) (l : list A) : In x l -> l <> [].
Proof. destruct l; [contradiction | discriminate]. Qed.

Lemma call_part_in (msg : MessageRecord) (tc : ToolCallRecord) :
  In tc (toolCallsOf msg) -> In (functionCallPart tc) (modelPartsOf msg).
Proof.
  intros H. unfold modelPartsOf. apply in_or_app. right. now apply in_map.
Qed.

Lemma normalizeParts_nil (v : JsValue) :
  normalizeParts v = [] <-> truthy v = false \/ v = JArray [].
Proof.
  unfold normalizeParts. destruct (truthy v) eqn:Ht; simpl.
  - split.
    + intros H. right. destruct v as [| |b|n|s|items|fields];
        try discriminate. destruct items; [reflexivity|discriminate].
    + intros [H | ->]; [discriminate|reflexivity].
  - split; auto.
Qed.

Lemma resultPartsOf_nil (msg : MessageRecord) :
  resultPartsOf msg = []
  <-> Forall (fun tc => notNullish (tc_result tc) = true ->
                        normalizeParts (tc_result tc) = [])
        (toolCallsOf msg).
Proof.
  unfold resultPartsOf. induction (toolCallsOf msg) as [|tc tcs IH]; simpl.
  - split; auto.
  - split.
    + intros H. apply app_eq_nil in H. destruct H as [Htc Htcs].
      constructor; [|now apply IH].
      intros Hres. now rewrite Hres in Htc.
    + intros H. inversion H as [|? ? Htc Htcs]; subst.
      rewrite (proj2 IH Htcs), app_nil_r.
      destruct (notNullish (tc_result tc)); [now apply Htc | reflexivity].
Qed.

(** C7, amended. For a model entry, the normalized result parts of the
    tool calls that carry a non-null result, in the order of the calls,
    make up one user-role turn emitted immediately after the entry's
    model turn, provided there is at least one such part; if no tool call
    of the entry carries a non-null result, or every non-null result
    normalizes to no part (a falsy result or the empty array), no
    response turn is emitted, and the model turn keeps its function-call
    parts unanswered. *)
Theorem C7_results_form_the_following_turn :
  forall (pre post : list MessageRecord) (msg : MessageRecord),
    msg_type msg = MsgGemini ->
    messageRecordsToHistory (pre ++ msg :: post)
    = messageRecordsToHistory pre
        ++ turn "model" (modelPartsOf msg)
        ++ turn "user" (resultPartsOf msg)
        ++ messageRecordsToHistory post
    /\ resultPartsOf msg
       = concat
           (List.map (fun tc => normalizeParts (tc_result tc))
              (filter (fun tc => notNullish (tc_result tc))
                 (toolCallsOf msg)))
    /\ (resultPartsOf msg <> [] ->
        messageRecordsToHistory (pre ++ msg :: post)
        = messageRecordsToHistory pre
            ++ {| role := "model"; parts := modelPartsOf msg |}
            :: {| role := "user"; parts := resultPartsOf msg |}
            :: messageRecordsToHistory post)
    /\ (forall (tc : ToolCallRecord) (p : Part),
          In tc (toolCallsOf msg) ->
          notNullish (tc_result tc) = true ->
          In p (normalizeParts (tc_result tc)) ->
          In p (resultPartsOf msg))
    /\ (resultPartsOf msg = [] ->
        messageRecordsToHistory (pre ++ msg :: post)
        = messageRecordsToHistory pre
            ++ turn "model" (modelPartsOf msg)
            ++ messageRecordsToHistory post
        /\ (forall tc : ToolCallRecord,
              In tc (toolCallsOf msg) ->
              turn "model" (modelPartsOf msg)
              = [{| role := "model"; parts := modelPartsOf msg |}]
              /\ In (functionCallPart tc) (modelPartsOf msg)))
    /\ (resultPartsOf msg = []
        <-> Forall (fun tc => notNullish (tc_result tc) = true ->
                              truthy (tc_result tc) = false
                              \/ tc_result tc = JArray [])
              (toolCallsOf msg))
    /\ (existsb (fun tc => notNullish (tc_result tc)) (toolCallsOf msg)
        = false ->
        resultPartsOf msg = []).
Proof.
  intros pre post msg Hty.
  assert (Hhist : messageRecordsToHistory (pre ++ msg :: post)
                  = messageRecordsToHistory pre
                      ++ turn "model" (modelPartsOf msg)
                      ++ turn "user" (resultPartsOf msg)
                      ++ messageRecordsToHistory post).
  { rewrite history_app, history_cons. unfold entryTurns. rewrite Hty.
    now rewrite <- app_assoc. }
  split; [exact Hhist|]. split; [apply resultPartsOf_filter|].
  split; [|split; [|split; [|split]]].
  - intros Hsome. rewrite Hhist.
    assert (Hcalls : modelPartsOf msg <> []).
    { intros Hnil. apply Hsome. apply resultPartsOf_nil.
      unfold modelPartsOf in Hnil. apply app_eq_nil in Hnil.
      destruct Hnil as [_ Hnil]. apply map_eq_nil in Hnil.
      rewrite Hnil. constructor. }
    rewrite (turn_some "user" _ Hsome), (turn_some "model" _ Hcalls).
    reflexivity.
  - intros tc p Htc Hres Hp. exact (result_part_in msg tc p Htc Hres Hp).
  - intros Hnone. split.
    + rewrite Hhist, Hnone. reflexivity.
    + intros tc Htc. pose proof (call_part_in msg tc Htc) as Hin.
      split; [apply turn_some; exact (nonempty_of_In _ _ Hin) | exact Hin].
  - rewrite resultPartsOf_nil. split; intros H;
      (eapply Forall_impl; [|exact H]); intros tc Htc Hres;
      apply normalizeParts_nil; auto.
  - intros Hnone. unfold resultPartsOf at 1.
    apply (no_result_no_parts _ Hnone).
Qed.

(** A model entry with one answered and one unanswered call: the answer
    is the turn after the model turn. *)
Lemma C7_results_form_the_following_turn_witness :
  let answered :=
    {| tc_id := "call-1"; tc_name := "save_note"; tc_args := JObject [];
       tc_result :=
         JArray [JObject [("functionResponse", JString "saved")]] |} in
  let pending :=
    {| tc_id := "call-2"; tc_name := "read_note"; tc_args := JObject [];
       tc_result := JNull |} in
  let msg :=
    {| msg_type := MsgGemini; msg_content := JString "On it.";
       msg_toolCalls := Some [answered; pending] |} in
  messageRecordsToHistory
    ([{| msg_type := MsgUser; msg_content := JString "remember X";
         msg_toolCalls := None |}] ++ msg :: [])
  = [{| role := "user"; parts := [textPart "remember X"] |};
     {| role := "model";
        parts := [textPart "On it."; functionCallPart answered;
                  functionCallPart pending] |};
     {| role := "user";
        parts := [JObject [("functionResponse", JString "saved")]] |}].
Proof.
  intros answered pending msg.
  exact (proj1 (C7_results_form_the_following_turn
                  [{| msg_type := MsgUser; msg_content := JString "remember X";
                      msg_toolCalls := None |}] [] msg eq_refl)).
Defined.

(** C7, as stated, fails for a call whose result is the empty string:
    the result is not null, yet it normalizes to no part and no response
    turn follows the model turn. *)
Lemma C7_counterexample_empty_result :
  let call :=
    {| tc_id := "call-1"; tc_name := "read_note"; tc_args := JObject [];
       tc_result := JString "" |} in
  let msg :=
    {| msg_type := MsgGemini; msg_content := JString "On it.";
       msg_toolCalls := Some [call] |} in
  notNullish (tc_result call) = true
  /\ messageRecordsToHistory [msg]
     = [{| role := "model";
           parts := [textPart "On it."; functionCallPart call] |}].
Proof. split; reflexivity. Qed.

(** *** Normalized parts *)

Lemma normalizeParts_no_bareString (content : JsValue) :
  Forall (fun p => bareString p = false) (normalizeParts content).
Proof.
  unfold normalizeParts. destruct (negb (truthy content)) eqn:E.
  - constructor.
  - destruct content; simpl in E; try discriminate;
      try (constructor; [reflexivity | constructor]).
    induction items as [|item items IH]; simpl; constructor.
    + destruct item; reflexivity.
    + exact IH.
Qed.

Lemma normalizeParts_parts (ps : list Part) :
  Forall (fun p => bareString p = false) ps ->
  normalizeParts (JArray ps) = ps.
Proof.
  unfold normalizeParts. simpl.
  induction 1 as [|p ps Hp _ IH]; simpl; [reflexivity|].
  rewrite IH. destruct p; (reflexivity || discriminate).
Qed.

(** *** Listing sessions *)

Section SortFacts.

Variable cmp : string -> string -> Z.

Lemma insertSorted_perm (x : string) (l : list string) :
  Permutation (insertSorted cmp x l) (x :: l).
Proof.
  induction l as [|y l IH]; simpl.
  - apply Permutation_refl.
  - destruct (cmp x y <=? 0)%Z.
    + apply Permutation_refl.
    + apply Permutation_trans with (y :: x :: l).
      * now apply perm_skip.
      * apply perm_swap.
Qed.

Lemma sort_perm (l : list string) : Permutation (sort cmp l) l.
Proof.
  induction l as [|x l IH]; simpl.
  - apply Permutation_refl.
  - apply Permutation_trans with (x :: sort cmp l).
    + apply insertSorted_perm.
    + now apply perm_skip.
Qed.

Hypothesis cmp_total : forall a b, (cmp a b <= 0 \/ cmp b a <= 0)%Z.
Hypothesis cmp_trans :
  forall a b c, (cmp a b <= 0 -> cmp b c <= 0 -> cmp a c <= 0)%Z.

Lemma insertSorted_sorted (x : string) (l : list string) :
  StronglySorted (fun a b => (cmp a b <= 0)%Z) l ->
  StronglySorted (fun a b => (cmp a b <= 0)%Z) (insertSorted cmp x l).
Proof.
  induction 1 as [|y l Hl IH Hy]; simpl.
  - constructor; constructor.
  - destruct (cmp x y <=? 0)%Z eqn:E.
    + apply Z.leb_le in E. constructor.
      * now constructor.
      * constructor; [exact E|].
        eapply Forall_impl; [|exact Hy]. intros z Hz.
        now apply cmp_trans with y.
    + apply Z.leb_gt in E. constructor; [exact IH|].
      apply Forall_forall. intros z Hz.
      apply (Permutation_in _ (insertSorted_perm x l)) in Hz.
      destruct Hz as [<- | Hz].
      * destruct (cmp_total y x) as [H | H]; [exact H | lia].
      * rewrite Forall_forall in Hy. now apply Hy.
Qed.

Lemma sort_sorted (l : list string) :
  StronglySorted (fun a b => (cmp a b <= 0)%Z) (sort cmp l).
Proof.
  induction l as [|x l IH]; simpl.
  - constructor.
  - now apply insertSorted_sorted.
Qed.

End SortFacts.

Lemma filter_sorted {A : Type} (R : A -> A -> Prop) (keep : A -> bool)
  (l : list A) :
  StronglySorted R l -> StronglySorted R (filter keep l).
Proof.
  induction 1 as [|x l Hl IH Hx]; simpl; [constructor|].
  destruct (keep x); [|exact IH]. constructor; [exact IH|].
  apply Forall_forall. intros y Hy. apply filter_In in Hy.
  rewrite Forall_forall in Hx. now apply Hx.
Qed.

Lemma filter_length_perm {A : Type} (keep : A -> bool) (l l' : list A) :
  Permutation l l' ->
  List.length (filter keep l) = List.length (filter keep l').
Proof.
  induction 1 as [|x l l' _ IH|x y l|l l' l'' _ IH1 _ IH2]; simpl.
  - reflexivity.
  - destruct (keep x); simpl; now rewrite IH.
  - destruct (keep x), (keep y); reflexivity.
  - now rewrite IH1.
Qed.

Section ListSessionsFacts.

Variable SESSION_FILE_PREFIX : string.
Variable JSON_parse : string -> Completion JsValue.
Variable localeCompare : string -> string -> Z.
Variable path_join : string -> string -> string.

(** [localeCompare] orders strings: any two compare, and the order is
    transitive. *)
Hypothesis localeCompare_total :
  forall a b, (localeCompare a b <= 0 \/ localeCompare b a <= 0)%Z.
Hypothesis localeCompare_trans :
  forall a b c,
    (localeCompare a b <= 0 -> localeCompare b c <= 0 ->
     localeCompare a c <= 0)%Z.

Let readInfo := readSessionInfo JSON_parse path_join.
Let decodable := decodes JSON_parse path_join.
Let sessionFile := isSessionFile SESSION_FILE_PREFIX.

Lemma push_decoded (fs : FileSystem) (chatsDir : string)
  (files : list string) (init : list SessionInfo) :
  fold_left
    (fun sessions file =>
       match readInfo fs chatsDir file with
       | Normal session => sessions ++ [session]
       | Throw _ => sessions
       end) files init
  = init
      ++ flat_map
           (fun file =>
              match readInfo fs chatsDir file with
              | Normal session => [session]
              | Throw _ => []
              end) files.
Proof.
  revert init. induction files as [|f files IH]; intros init; simpl.
  - now rewrite app_nil_r.
  - rewrite IH. destruct (readInfo fs chatsDir f); simpl.
    + now rewrite <- app_assoc.
    + reflexivity.
Qed.

Lemma decoded_Forall2 (fs : FileSystem) (chatsDir : string)
  (files : list string) :
  Forall2 (fun file session => readInfo fs chatsDir file = Normal session)
    (filter (decodable fs chatsDir) files)
    (flat_map
       (fun file =>
          match readInfo fs chatsDir file with
          | Normal session => [session]
          | Throw _ => []
          end) files).
Proof.
  induction files as [|f files IH]; simpl; [constructor|].
  unfold decodable, decodes. fold readInfo.
  destruct (readInfo fs chatsDir f) eqn:E; simpl.
  - constructor; assumption.
  - exact IH.
Qed.

Lemma readInfo_filePath (fs : FileSystem) (chatsDir file : string)
  (session : SessionInfo) :
  readInfo fs chatsDir file = Normal session ->
  filePath session = path_join chatsDir file.
Proof.
  unfold readInfo, readSessionInfo, bind. intros H.
  repeat match type of H with
         | match ?c with Normal _ => _ | Throw _ => _ end = _ =>
             destruct c; [|discriminate]
         end.
  injection H as <-. reflexivity.
Qed.

(** What a decoded record holds: the fields read off the parsed text. *)
Lemma readInfo_fields (fs : FileSystem) (chatsDir file : string)
  (session : SessionInfo) :
  readInfo fs chatsDir file = Normal session ->
  exists (raw : string) (conv messages : JsValue),
    readFile fs (path_join chatsDir file) = Normal raw
    /\ JSON_parse raw = Normal conv
    /\ getProp conv "messages" = Normal messages
    /\ getProp conv "sessionId" = Normal (sessionId session)
    /\ filePath session = path_join chatsDir file
    /\ getProp conv "startTime" = Normal (startTime session)
    /\ getProp conv "lastUpdated" = Normal (lastUpdated session)
    /\ getProp messages "length" = Normal (messageCount session)
    /\ getProp conv "summary" = Normal (summary session).
Proof.
  unfold readInfo, readSessionInfo, bind. intros H.
  destruct (readFile fs (path_join chatsDir file)) as [raw|] eqn:Hraw in H;
    [|discriminate].
  destruct (JSON_parse raw) as [conv|] eqn:Hconv in H; [|discriminate].
  destruct (getProp conv "sessionId") as [sid|] eqn:Hsid in H; [|discriminate].
  destruct (getProp conv "startTime") as [st|] eqn:Hst in H; [|discriminate].
  destruct (getProp conv "lastUpdated") as [lu|] eqn:Hlu in H; [|discriminate].
  destruct (getProp conv "messages") as [messages|] eqn:Hmsgs in H;
    [|discriminate].
  destruct (getProp messages "length") as [count|] eqn:Hcount in H;
    [|discriminate].
  destruct (getProp conv "summary") as [sm|] eqn:Hsm in H; [|discriminate].
  injection H as <-. exists raw, conv, messages. simpl.
  repeat split; assumption || reflexivity.
Qed.

(** C8. [listSessions] returns one [SessionInfo] per session-record file
    that decodes, ordered newest first by file name; a file that fails to
    decode is skipped and the listing goes on, so a directory with one
    well-formed and one corrupt record yields exactly one [SessionInfo]. *)
Theorem C8_listSessions_one_per_decodable_file :
  forall (projectTempDir : string) (fs : FileSystem),
    let chatsDir := path_join projectTempDir "chats" in
    let found :=
      filter (isSessionFile SESSION_FILE_PREFIX) (directoryFiles fs chatsDir) in
    let sessionFiles := sort (fun a b => localeCompare b a) found in
    let decoded :=
      filter (decodes JSON_parse path_join fs chatsDir) sessionFiles in
    let listed :=
      listSessions SESSION_FILE_PREFIX JSON_parse localeCompare path_join
        projectTempDir fs in
    Permutation sessionFiles found
    /\ Forall2
         (fun file session =>
            readSessionInfo JSON_parse path_join fs chatsDir file
            = Normal session)
         decoded listed
    /\ (forall (file : string) (session : SessionInfo),
          readSessionInfo JSON_parse path_join fs chatsDir file
          = Normal session ->
          exists (raw : string) (conv messages : JsValue),
            readFile fs (path_join chatsDir file) = Normal raw
            /\ JSON_parse raw = Normal conv
            /\ getProp conv "messages" = Normal messages
            /\ getProp conv "sessionId" = Normal (sessionId session)
            /\ filePath session = path_join chatsDir file
            /\ getProp conv "startTime" = Normal (startTime session)
            /\ getProp conv "lastUpdated" = Normal (lastUpdated session)
            /\ getProp messages "length" = Normal (messageCount session)
            /\ getProp conv "summary" = Normal (summary session))
    /\ List.map filePath listed = List.map (path_join chatsDir) decoded
    /\ StronglySorted (newestFirst localeCompare) decoded
    /\ List.length listed
       = List.length
           (filter (decodes JSON_parse path_join fs chatsDir) found)
    /\ (forall good bad : string,
          Permutation found [good; bad] ->
          decodes JSON_parse path_join fs chatsDir good = true ->
          decodes JSON_parse path_join fs chatsDir bad = false ->
          exists session : SessionInfo,
            listed = [session]
            /\ readSessionInfo JSON_parse path_join fs chatsDir good
               = Normal session).
Proof.
  intros projectTempDir fs chatsDir found sessionFiles decoded listed.
  assert (Hperm : Permutation sessionFiles found) by apply sort_perm.
  assert (Hlisted :
            Forall2
              (fun file session =>
                 readSessionInfo JSON_parse path_join fs chatsDir file
                 = Normal session)
              decoded listed).
  { unfold listed, listSessions. fold chatsDir.
    unfold decoded, sessionFiles, found, directoryFiles.
    destruct (readdir fs chatsDir) as [files|e]; simpl.
    - rewrite (push_decoded fs chatsDir). simpl. apply decoded_Forall2.
    - constructor. }
  split; [exact Hperm|]. split; [exact Hlisted|].
  split; [intros file session; apply readInfo_fields|].
  split; [|split; [|split]].
  - clear Hperm. clearbody listed decoded.
    induction Hlisted as [|f s fl sl Hfs _ IH]; simpl.
    + reflexivity.
    + now rewrite IH, (readInfo_filePath fs chatsDir f s Hfs).
  - apply filter_sorted. unfold sessionFiles, newestFirst.
    apply (sort_sorted (fun a b => localeCompare b a)).
    + intros a b.
      destruct (localeCompare_total a b); [right | left]; assumption.
    + intros a b c Hab Hbc. now apply localeCompare_trans with b.
  - rewrite <- (Forall2_length Hlisted). unfold decoded.
    now apply filter_length_perm.
  - intros good bad Hfound Hgood Hbad.
    assert (Hfiles : sessionFiles = [good; bad] \/ sessionFiles = [bad; good]).
    { apply Permutation_length_2_inv. apply Permutation_sym.
      now apply Permutation_trans with found. }
    assert (Hdecoded : decoded = [good]).
    { unfold decoded.
      destruct Hfiles as [-> | ->]; simpl; now rewrite Hgood, Hbad. }
    rewrite Hdecoded in Hlisted.
    inversion Hlisted as [|f s fl sl Hs Hrest]; subst.
    inversion Hrest; subst. exists s. split; [reflexivity | exact Hs].
Qed.

End ListSessionsFacts.

(** Comparing code unit by code unit orders the file names. *)
Lemma codeUnitCompare_le (a b : string) :
  (codeUnitCompare a b <= 0)%Z <-> a = b \/ OrdersEx.String_as_OT.lt a b.
Proof.
  pose proof OrdersEx.String_as_OT.lt_strorder as [Hirr Htr].
  unfold codeUnitCompare.
  destruct (OrdersEx.String_as_OT.compare_spec a b) as [H|H|H];
    unfold OrdersEx.String_as_OT.eq in *.
  - split; [now left | lia].
  - split; [now right | lia].
  - split; [lia|]. intros [-> | H'].
    + destruct (Hirr b H).
    + destruct (Hirr a (Htr a b a H' H)).
Qed.

Lemma codeUnitCompare_total (a b : string) :
  (codeUnitCompare a b <= 0 \/ codeUnitCompare b a <= 0)%Z.
Proof.
  rewrite !codeUnitCompare_le.
  destruct (OrdersEx.String_as_OT.compare_spec a b) as [H|H|H];
    unfold OrdersEx.String_as_OT.eq in *; auto.
Qed.

Lemma codeUnitCompare_trans (a b c : string) :
  (codeUnitCompare a b <= 0 -> codeUnitCompare b c <= 0 ->
   codeUnitCompare a c <= 0)%Z.
Proof.
  pose proof OrdersEx.String_as_OT.lt_strorder as [_ Htr].
  rewrite !codeUnitCompare_le.
  intros [-> | Hab] [-> | Hbc]; auto.
  right. exact (Htr a b c Hab Hbc).
Qed.

(** The sample directory: the truncated record is skipped, the
    well-formed one is listed. *)
Lemma C8_listSessions_one_per_decodable_file_witness :
  exists session : SessionInfo,
    listSessions "session-" sampleParse codeUnitCompare sampleJoin
      "/tmp/project" sampleFs = [session]
    /\ readSessionInfo sampleParse sampleJoin sampleFs "/tmp/project/chats"
         "session-2025-01-01.json" = Normal session.
Proof.
  apply (proj2 (proj2 (proj2 (proj2 (proj2 (proj2
           (C8_listSessions_one_per_decodable_file "session-" sampleParse
              codeUnitCompare sampleJoin codeUnitCompare_total
              codeUnitCompare_trans "/tmp/project" sampleFs)))))))
    with (bad := "session-2025-02-01.json").
  - apply Permutation_refl.
  - reflexivity.
  - reflexivity.
Defined.

End SessionFacts.

(** ** Tool execution *)

Module ToolFacts.

Import Tool ToolSamples.

Section ExecuteFacts.

Variable World : Type.
Variable SessionContext : Type.
Variable JSON_stringify : JsValue -> Completion (option string).

(** The core, as the loop of [sendStream] calls it. *)
Variable getWorkingDir : World -> string.
Variable toISOString : World -> string.
Variable getHistory : World -> list Session.Content.
Variable sendMessageStream :
  list Session.Part -> World ->
  list Agent.ServerGeminiStreamEvent * option Thrown * World.
Variable scheduleAgentTools :
  list Agent.ToolCallRequestInfo -> Agent.SessionContext -> World ->
  Completion (list Agent.CompletedToolCall) * World.
Variable JSON_parse : string -> Completion JsValue.

Let loop :=
  Agent.turnLoop World getWorkingDir toISOString getHistory
    sendMessageStream scheduleAgentTools JSON_parse.

Lemma execute_thrown (inv : SdkToolInvocation World SessionContext)
  (w w' : World) (e : Thrown) :
  inv_action inv (inv_params inv) (inv_context inv) w = (Throw e, w') ->
  execute JSON_stringify inv w
  = if inv_sendErrorsToModel inv || instanceofToolError e
    then (Normal {| llmContent := Some ("Error: " ++ errorMessage e)%string;
                    returnDisplay :=
                      Some ("Error: " ++ errorMessage e)%string;
                    error := Some (errorMessage e) |}, w')
    else (Throw e, w').
Proof. intros H. unfold execute. now rewrite H. Qed.

Lemma scheduler_throw_rejects (fuel : nat) (sessionId : string)
  (input : list Session.Part) (w w1 w2 : World)
  (events : list Agent.ServerGeminiStreamEvent)
  (toolCalls : list Agent.ToolCallRequestInfo) (raised : Thrown) :
  sendMessageStream input w = (events, None, w1) ->
  Agent.extractToolCalls JSON_parse events sessionId = Normal toolCalls ->
  toolCalls <> [] ->
  scheduleAgentTools toolCalls
    (Agent.buildContext World getWorkingDir toISOString getHistory
       sessionId w1) w1
  = (Throw raised, w2) ->
  loop (S fuel) sessionId input w
  = ((Agent.SendMessageStream input :: List.map Agent.Yield events)
       ++ [Agent.ScheduleAgentTools toolCalls (Throw raised)],
     Agent.Rejected raised, w2).
Proof.
  intros Hstream Hcalls Hsome Hsched. unfold loop. simpl.
  rewrite Hstream, Hcalls.
  destruct toolCalls as [|c cs]; [congruence|].
  now rewrite Hsched.
Qed.

(** C3, amended. For every tool definition and every error thrown by its
    action: if the tool declares [sendErrorsToModel] true, or the error
    is a [ToolError], the execution returns a normal tool result whose
    model-visible content and display content are the error message
    prefixed with "Error: ", with the error field set; every other thrown
    error is raised again by the execution, to the scheduler that called
    it.  The turn is aborted when the scheduler's call throws: the send
    is then rejected with what the scheduler threw, after the round's
    events, and no further round runs. *)
Theorem C3_thrown_error_reported_or_raised :
  forall (tool : SdkTool World SessionContext) (params : JsValue)
    (toolName : option string) (w w' : World) (e : Thrown),
    action (def tool) params (context tool) w = (Throw e, w') ->
    (sendErrorsToModel (def tool) = Some true
     \/ instanceofToolError e = true ->
     execute JSON_stringify (createInvocation tool params toolName) w
     = (Normal {| llmContent := Some ("Error: " ++ errorMessage e)%string;
                  returnDisplay := Some ("Error: " ++ errorMessage e)%string;
                  error := Some (errorMessage e) |}, w'))
    /\ (sendErrorsToModel (def tool) <> Some true ->
        instanceofToolError e = false ->
        execute JSON_stringify (createInvocation tool params toolName) w
        = (Throw e, w'))
    /\ (forall message : string,
          errorMessage (newToolError message) = message
          /\ errorMessage (ThrownError message) = message)
    /\ (forall (fuel : nat) (sessionId : string)
          (input : list Session.Part) (w0 w1 w2 : World)
          (events : list Agent.ServerGeminiStreamEvent)
          (toolCalls : list Agent.ToolCallRequestInfo) (raised : Thrown),
          sendMessageStream input w0 = (events, None, w1) ->
          Agent.extractToolCalls JSON_parse events sessionId
          = Normal toolCalls ->
          toolCalls <> [] ->
          scheduleAgentTools toolCalls
            (Agent.buildContext World getWorkingDir toISOString getHistory
               sessionId w1) w1
          = (Throw raised, w2) ->
          loop (S fuel) sessionId input w0
          = ((Agent.SendMessageStream input
                :: List.map Agent.Yield events)
               ++ [Agent.ScheduleAgentTools toolCalls (Throw raised)],
             Agent.Rejected raised, w2)).
Proof.
  intros tool params toolName w w' e Hthrow.
  assert (Hexec := execute_thrown (createInvocation tool params toolName)
                     w w' e Hthrow).
  simpl in Hexec. split; [|split; [|split]].
  - intros [Hflag | Hkind]; rewrite Hexec.
    + now rewrite Hflag.
    + rewrite Hkind, orb_true_r. reflexivity.
  - intros Hflag Hkind. rewrite Hexec, Hkind.
    destruct (sendErrorsToModel (def tool)) as [[|]|];
      [congruence | reflexivity | reflexivity].
  - intros message. split; reflexivity.
  - intros fuel sessionId input w0 w1 w2 events toolCalls raised.
    apply scheduler_throw_rejects.
Qed.

End ExecuteFacts.

(** A tool that does not opt in throws a [ToolError]: the error is
    reported to the model all the same. *)
Lemma C3_thrown_error_reported_or_raised_witness :
  execute unreached (createInvocation (newSdkTool lookupTool) JNull None) tt
  = (Normal {| llmContent := Some "Error: no such key";
               returnDisplay := Some "Error: no such key";
               error := Some "no such key" |}, tt).
Proof.
  apply (proj1 (C3_thrown_error_reported_or_raised unit unit unreached
                  (fun _ => "/work") (fun _ => "2025-01-01T00:00:00.000Z")
                  (fun _ => []) (fun _ w => ([], None, w))
                  (fun _ _ w => (Normal [], w)) AgentSamples.sampleArgs
                  (newSdkTool lookupTool) JNull None tt tt
                  (newToolError "no such key") eq_refl)).
  right. reflexivity.
Defined.

(** C3, as stated, fails in the turn: the note tool has not opted in and
    throws a plain [Error], the execution raises it again, and a
    scheduler that reports the raised error as the call's response lets
    the turn go on to its end. *)
Lemma C3_counterexample_turn_goes_on :
  execute unreached
    (createInvocation
       (withContext (newSdkTool TurnSamples.fullDisk)
          (Agent.buildContext nat (fun _ => "/work")
             (fun _ => "2025-01-01T00:00:00.000Z") (fun _ => [])
             "session-1" 1%nat))
       (JObject [("text", JString "X")]) None)
    1%nat
  = (Throw (ThrownError "disk full"), 1%nat)
  /\ TurnSamples.fullDiskSend 4 "remember X"
       (Agent.newGeminiAgent (Agent.InstructionString "Be terse.")) 0%nat
     = ([Agent.SendMessageStream [Session.textPart "remember X"];
         Agent.Yield (Agent.ToolCallRequestEvent AgentSamples.saveNote);
         Agent.ScheduleAgentTools [AgentSamples.saveNoteCall]
           (Normal
              [TurnSamples.answerWith AgentSamples.saveNoteCall "error"
                 "disk full"]);
         Agent.SendMessageStream
           [TurnSamples.functionResponse AgentSamples.saveNoteCall "error"
              "disk full"];
         Agent.Yield (Agent.ContentEvent "I could not save it.")],
        Agent.Returned,
        Agent.newGeminiAgent (Agent.InstructionString "Be terse."),
        2%nat).
Proof. split; reflexivity. Qed.

End ToolFacts.

(** ** The sub-agent bridge *)

Module SubAgentFacts.

Import SubAgent SubAgentSamples.

Lemma occursIn_intro (before needle after : string) :
  occursIn needle (before ++ needle ++ after)%string.
Proof. exists before, after. reflexivity. Qed.

Lemma append_assoc (a b c : string) :
  ((a ++ b) ++ c)%string = (a ++ b ++ c)%string.
Proof. induction a as [|ch a IH]; simpl; [reflexivity | now rewrite IH]. Qed.

Lemma append_empty_r (a : string) : (a ++ "")%string = a.
Proof. induction a as [|ch a IH]; simpl; [reflexivity | now rewrite IH]. Qed.

Lemma terminatedMessage_names (def : LocalAgentDefinition) (reason : string) :
  occursIn (name def) (terminatedMessage def reason)
  /\ occursIn reason (terminatedMessage def reason).
Proof.
  unfold terminatedMessage. split.
  - exists ("Sub-agent " ++ doubleQuote)%string,
      (doubleQuote ++ " terminated: " ++ reason)%string.
    now rewrite append_assoc.
  - exists ("Sub-agent " ++ doubleQuote ++ name def ++ doubleQuote
              ++ " terminated: ")%string, ""%string.
    now rewrite append_empty_r, !append_assoc.
Qed.

(** The text parts, collected one by one, are what filter and map keep. *)
Lemma textsOf_filter_map (parts : list A2APart) :
  List.map partText (filter isTextPart parts) = textsOf parts.
Proof.
  induction parts as [|p parts IH]; simpl; [reflexivity|].
  destruct p; simpl; now rewrite ?IH.
Qed.

Lemma extractTextFromParts_texts (parts : list A2APart) :
  extractTextFromParts parts = join newline (textsOf parts).
Proof. unfold extractTextFromParts. now rewrite textsOf_filter_map. Qed.

Lemma extractTextFromResult_texts (result : SendMessageResult) :
  extractTextFromResult result = join newline (textsOf (relevantParts result)).
Proof.
  destruct result as [m | t]; simpl.
  - apply extractTextFromParts_texts.
  - destruct (status t) as [st|]; [|reflexivity].
    destruct (status_message st) as [m|]; [|reflexivity].
    apply extractTextFromParts_texts.
Qed.

Section BridgeFacts.

Variable World : Type.
Variable SessionContext : Type.
Variable GOAL : string.
Variable getActiveModel : World -> string.
Variable registerRuntimeModelConfig : string -> string -> World -> World.
Variable runLocalAgentExecutor :
  LocalAgentDefinition -> JsValue -> World -> Completion OutputObject * World.
Variable sendMessage :
  string -> string -> World -> Completion SendMessageResult * World.
Variable JSON_stringify : JsValue -> string.

(** C4. For every local sub-agent run, the wrapped tool action returns
    the run's result string if and only if the run terminated with the
    goal reason; every other termination reason makes the action throw a
    [ToolError] whose message contains the sub-agent's name and the
    reason code, never a string result. *)
Theorem C4_local_agent_result_only_on_goal :
  forall (def : LocalAgentDefinition) (params : JsValue)
    (ctx : SessionContext) (w w' : World) (out : OutputObject),
    runLocalAgentExecutor def params
      (registerRuntimeModelConfig (name def ++ "-config")%string
         (if model def =? "inherit" then getActiveModel w else model def) w)
    = (Normal out, w') ->
    let acted :=
      Tool.action
        (wrapLocalAgentAsTool World SessionContext GOAL getActiveModel
           registerRuntimeModelConfig runLocalAgentExecutor def)
        params (Some ctx) w in
    (terminate_reason out = GOAL ->
     acted = (Normal (JString (result out)), w'))
    /\ (terminate_reason out <> GOAL ->
        acted
        = (Throw (ThrownToolError
                    (terminatedMessage def (terminate_reason out))), w')
        /\ occursIn (name def) (terminatedMessage def (terminate_reason out))
        /\ occursIn (terminate_reason out)
             (terminatedMessage def (terminate_reason out)))
    /\ ((exists value : JsValue, acted = (Normal value, w'))
        <-> terminate_reason out = GOAL).
Proof.
  intros def params ctx w w' out Hrun acted.
  assert (Hacted :
            acted
            = if negb (terminate_reason out =? GOAL)
              then (Throw (ThrownToolError
                             (terminatedMessage def (terminate_reason out))),
                    w')
              else (Normal (JString (result out)), w')).
  { unfold acted. simpl. unfold executeLocalAgent. rewrite Hrun.
    destruct (terminate_reason out =? GOAL); reflexivity. }
  split; [|split].
  - intros Hgoal. rewrite Hacted.
    apply String.eqb_eq in Hgoal. now rewrite Hgoal.
  - intros Hother. rewrite Hacted.
    apply String.eqb_neq in Hother. rewrite Hother. simpl.
    split; [reflexivity | apply terminatedMessage_names].
  - rewrite Hacted. destruct (terminate_reason out =? GOAL) eqn:E; simpl.
    + apply String.eqb_eq in E. split; [intros _; exact E|].
      intros _. now exists (JString (result out)).
    + apply String.eqb_neq in E. split; [|contradiction].
      intros [value Hvalue]. discriminate.
Qed.

(** C5. For every remote sub-agent response, a direct message or a task
    status, the tool result is the texts of the text parts of the
    response's part list joined with newlines; a response with no text
    part at all, a task without status message parts included, gives the
    empty string and no error. *)
Theorem C5_remote_agent_text_of_response :
  forall (def : RemoteAgentDefinition) (params : JsValue)
    (ctx : option SessionContext) (w w' : World)
    (response : SendMessageResult),
    sendMessage (agentCardUrl def) (remoteQuery JSON_stringify params) w
    = (Normal response, w') ->
    let acted :=
      Tool.action
        (wrapRemoteAgentAsTool World SessionContext sendMessage
           JSON_stringify def)
        params ctx w in
    acted = (Normal (JString (join newline (textsOf (relevantParts response)))),
             w')
    /\ (textsOf (relevantParts response) = [] ->
        acted = (Normal (JString ""), w'))
    /\ (forall t : Task,
          response = ResultTask t ->
          (status t = None
           \/ (exists st, status t = Some st /\ status_message st = None)
           \/ (exists st m,
                 status t = Some st /\ status_message st = Some m
                 /\ message_parts m = [])) ->
          acted = (Normal (JString ""), w')).
Proof.
  intros def params ctx w w' response Hsend acted.
  assert (Hacted :
            acted
            = (Normal (JString (join newline
                                  (textsOf (relevantParts response)))), w')).
  { unfold acted. simpl. rewrite Hsend.
    now rewrite extractTextFromResult_texts. }
  split; [exact Hacted|]. split.
  - intros Hnone. rewrite Hacted, Hnone. reflexivity.
  - intros t -> Hempty. rewrite Hacted. simpl.
    destruct Hempty as [-> | [[st [-> ->]] | [st [m [-> [-> ->]]]]]];
      reflexivity.
Qed.

End BridgeFacts.

(** A researcher that runs out of turns: the action throws the tool
    error, after the model alias was registered. *)
Lemma C4_local_agent_result_only_on_goal_witness :
  Tool.action
    (wrapLocalAgentAsTool registry unit "GOAL" (fun _ => "gemini-pro")
       (fun alias model w => (alias, model) :: w) outOfTurns researcher)
    JNull (Some tt) []
  = (Throw (ThrownToolError (terminatedMessage researcher "MAX_TURNS")),
     [("researcher-config", "gemini-pro")])
  /\ occursIn "researcher" (terminatedMessage researcher "MAX_TURNS")
  /\ occursIn "MAX_TURNS" (terminatedMessage researcher "MAX_TURNS").
Proof.
  apply (proj1 (proj2 (C4_local_agent_result_only_on_goal registry unit
                         "GOAL" (fun _ => "gemini-pro")
                         (fun alias model w => (alias, model) :: w)
                         outOfTurns researcher JNull tt []
                         [("researcher-config", "gemini-pro")]
                         {| result := "so far";
                            terminate_reason := "MAX_TURNS" |}
                         eq_refl))).
  simpl. discriminate.
Defined.

(** A remote agent that answers with a task carrying no status message:
    the empty string. *)
Lemma C5_remote_agent_text_of_response_witness :
  Tool.action
    (wrapRemoteAgentAsTool unit unit
       (fun _ _ w => (Normal quietTask, w)) toString
       {| remote_name := "translator";
          remote_description := "Translates";
          agentCardUrl := "https://agents.example/translator" |})
    (JObject [("query", JString "bonjour")]) None tt
  = (Normal (JString ""), tt).
Proof.
  apply (proj1 (proj2 (C5_remote_agent_text_of_response unit unit
                         (fun _ _ w => (Normal quietTask, w)) toString
                         {| remote_name := "translator";
                            remote_description := "Translates";
                            agentCardUrl :=
                              "https://agents.example/translator" |}
                         (JObject [("query", JString "bonjour")]) None tt tt
                         quietTask eq_refl))).
  reflexivity.
Defined.

End SubAgentFacts.

(** ** The turn loop *)

Module AgentFacts.

Import Session Agent AgentSamples.

Lemma flat_map_length_sum {A B : Type} (f : A -> list B) (l : list A) :
  List.length (flat_map f l)
  = list_sum (List.map (fun x => List.length (f x)) l).
Proof.
  induction l as [|x l IH]; simpl; [reflexivity|].
  now rewrite length_app, IH.
Qed.

Lemma functionResponses_single (completedCalls : list CompletedToolCall) :
  Forall (fun call => List.length (responseParts (response call)) = 1%nat)
    completedCalls ->
  functionResponses completedCalls
  = List.map (fun call => nth 0 (responseParts (response call)) JUndefined)
      completedCalls.
Proof.
  unfold functionResponses.
  induction 1 as [|call calls Hone _ IH]; simpl; [reflexivity|].
  rewrite IH. destruct (responseParts (response call)) as [|p [|q ps]];
    simpl in Hone; try discriminate. reflexivity.
Qed.

Section TurnLoopFacts.

Variable World : Type.
Variable initialize : World -> Completion unit * World.
Variable getSessionId : World -> string.
Variable getWorkingDir : World -> string.
Variable toISOString : World -> string.
Variable getHistory : World -> list Content.
Variable setUserMemory : string -> World -> World.
Variable updateSystemInstruction : World -> World.
Variable sendMessageStream :
  list Part -> World ->
  list ServerGeminiStreamEvent * option Thrown * World.
Variable scheduleAgentTools :
  list ToolCallRequestInfo -> SessionContext -> World ->
  Completion (list CompletedToolCall) * World.
Variable JSON_parse : string -> Completion JsValue.

Let context := buildContext World getWorkingDir toISOString getHistory.
Let loop :=
  turnLoop World getWorkingDir toISOString getHistory sendMessageStream
    scheduleAgentTools JSON_parse.
Let send :=
  sendStream World initialize getSessionId getWorkingDir toISOString
    getHistory setUserMemory updateSystemInstruction sendMessageStream
    scheduleAgentTools JSON_parse.

(** A round that is run starts by streaming its request. *)
Lemma loop_starts_streaming (fuel : nat) (sessionId : string)
  (request : list Part) (w : World) :
  exists rest : list Step,
    fst (fst (loop (S fuel) sessionId request w))
    = SendMessageStream request :: rest.
Proof.
  unfold loop. simpl.
  destruct (sendMessageStream request w) as [[events failure] w1].
  destruct failure as [e|]; [eexists; reflexivity|].
  destruct (extractToolCalls JSON_parse events sessionId) as [[|c cs]|e];
    try (eexists; reflexivity).
  destruct (scheduleAgentTools (c :: cs) _ w1) as [[completed|e] w2].
  - destruct (turnLoop _ _ _ _ _ _ _ fuel sessionId _ w2) as [[later o] w3].
    eexists. reflexivity.
  - eexists. reflexivity.
Qed.

(** C1, amended. When a round's tool calls are scheduled, the input of the
    next round is the completions' response parts, concatenated in the
    order in which the scheduler returned the completions: their number
    is the sum of the completions' part counts.  When every completion
    carries exactly one part, the number of parts fed equals the number of
    completions and the i-th part is the i-th completion's; when moreover
    the scheduler returns the completions in request order, the i-th part
    answers the i-th request. *)
Theorem C1_next_input_is_the_completions_parts :
  forall (fuel : nat) (sessionId : string) (input : list Part)
    (w w1 w2 : World) (events : list ServerGeminiStreamEvent)
    (toolCalls : list ToolCallRequestInfo)
    (completedCalls : list CompletedToolCall),
    sendMessageStream input w = (events, None, w1) ->
    extractToolCalls JSON_parse events sessionId = Normal toolCalls ->
    toolCalls <> [] ->
    scheduleAgentTools toolCalls (context sessionId w1) w1
    = (Normal completedCalls, w2) ->
    loop (S fuel) sessionId input w
    = (let '(later, outcome, w3) :=
         loop fuel sessionId (functionResponses completedCalls) w2 in
       ((SendMessageStream input :: List.map Yield events)
          ++ ScheduleAgentTools toolCalls (Normal completedCalls) :: later,
        outcome, w3))
    /\ functionResponses completedCalls
       = concat (List.map (fun call => responseParts (response call))
                   completedCalls)
    /\ List.length (functionResponses completedCalls)
       = list_sum
           (List.map (fun call => List.length (responseParts (response call)))
              completedCalls)
    /\ (Forall
          (fun call => List.length (responseParts (response call)) = 1%nat)
          completedCalls ->
        List.length (functionResponses completedCalls)
        = List.length completedCalls
        /\ (forall (i : nat) (call : CompletedToolCall),
              nth_error completedCalls i = Some call ->
              nth_error (functionResponses completedCalls) i
              = nth_error (responseParts (response call)) 0)
        /\ (List.map (fun call => callId (request call)) completedCalls
            = List.map callId toolCalls ->
            forall (i : nat) (asked : ToolCallRequestInfo),
              nth_error toolCalls i = Some asked ->
              exists call : CompletedToolCall,
                nth_error completedCalls i = Some call
                /\ callId (request call) = callId asked
                /\ nth_error (functionResponses completedCalls) i
                   = nth_error (responseParts (response call)) 0)).
Proof.
  intros fuel sessionId input w w1 w2 events toolCalls completedCalls
    Hstream Hcalls Hsome Hsched.
  split; [|split; [|split]].
  - unfold loop. simpl. rewrite Hstream, Hcalls.
    destruct toolCalls as [|c cs]; [congruence|].
    fold (context sessionId w1). rewrite Hsched. reflexivity.
  - unfold functionResponses. apply flat_map_concat_map.
  - unfold functionResponses. apply flat_map_length_sum.
  - intros Hone.
    assert (Hnth : forall (i : nat) (call : CompletedToolCall),
               nth_error completedCalls i = Some call ->
               nth_error (functionResponses completedCalls) i
               = nth_error (responseParts (response call)) 0).
    { intros i call Hi. rewrite (functionResponses_single _ Hone).
      rewrite nth_error_map, Hi. simpl.
      rewrite Forall_forall in Hone.
      specialize (Hone call (nth_error_In _ _ Hi)).
      destruct (responseParts (response call)) as [|p [|q ps]];
        simpl in Hone; try discriminate. reflexivity. }
    split; [|split; [exact Hnth|]].
    + rewrite (functionResponses_single _ Hone). apply length_map.
    + intros Horder i asked Hi.
      assert (Hid : nth_error
                      (List.map (fun call => callId (request call))
                         completedCalls) i = Some (callId asked)).
      { rewrite Horder, nth_error_map, Hi. reflexivity. }
      rewrite nth_error_map in Hid.
      destruct (nth_error completedCalls i) as [call|] eqn:Hcall;
        [|discriminate].
      injection Hid as Hid. exists call.
      split; [reflexivity | split; [exact Hid | now apply Hnth]].
Qed.

(** *** Resolving the instructions *)






Lemma quiet_settled (steps : list Step) :
  quiet steps = true -> settled steps = true.
Proof.
  induction steps as [|s steps IH]; simpl; [reflexivity|].
  intros H. apply andb_true_iff in H. destruct H as [Hs Hrest].
  destruct (isResolved s); [exact Hrest | now apply IH].
Qed.












End TurnLoopFacts.

(** *** A worked conversation *)

(** The tool answers with one part: the second round is fed that part,
    and the loop ends after two rounds. *)
Lemma C1_next_input_is_the_completions_parts_witness :
  sampleLoop [saved] 2 "session-1" [textPart "remember X"] 0%nat
  = ([SendMessageStream [textPart "remember X"];
      Yield (ContentEvent "Noting.");
      Yield (ToolCallRequestEvent saveNote);
      ScheduleAgentTools [saveNoteCall] (Normal [saveNoteDone [saved]]);
      SendMessageStream [saved];
      Yield (ContentEvent "Saved.")],
     Returned, 2%nat).
Proof.
  refine (proj1 (C1_next_input_is_the_completions_parts nat
                   (fun _ => "/work") (fun _ => "2025-01-01T00:00:00.000Z")
                   (fun _ => []) sampleStream (sampleSchedule [saved])
                   sampleArgs 1 "session-1" [textPart "remember X"]
                   0%nat 1%nat 1%nat
                   [ContentEvent "Noting."; ToolCallRequestEvent saveNote]
                   [saveNoteCall] [saveNoteDone [saved]]
                   eq_refl eq_refl _ eq_refl)).
  discriminate.
Defined.

(** C1, as stated, fails when a completion carries two function-response
    parts: the scheduler returns one completion and the next round is fed
    two function-response parts. *)
Lemma C1_counterexample_completion_with_two_parts :
  sampleSend [saved; stored] 2 "remember X"
    (newGeminiAgent (InstructionString "Be terse.")) 0%nat
  = ([SendMessageStream [textPart "remember X"];
      Yield (ContentEvent "Noting.");
      Yield (ToolCallRequestEvent saveNote);
      ScheduleAgentTools [saveNoteCall]
        (Normal [saveNoteDone [saved; stored]]);
      SendMessageStream [saved; stored];
      Yield (ContentEvent "Saved.")],
     Returned, newGeminiAgent (InstructionString "Be terse."), 2%nat)
  /\ List.length [saveNoteDone [saved; stored]] = 1%nat
  /\ List.length
       (filter AgentTerms.isFunctionResponse
          (functionResponses [saveNoteDone [saved; stored]]))
     = 2%nat.
Proof. repeat split. Qed.



End AgentFacts.

(** ** More on the session history store *)

Module SessionLaws.

Import Session SessionTerms Resume SessionSamples SessionLawSamples.

(** [normalizeParts] never returns a bare string, returns one part per
    element of an array, and leaves its own result, given back as an
    array, unchanged. *)
Theorem normalizeParts_settles :
  forall content : JsValue,
    Forall (fun p => bareString p = false) (normalizeParts content)
    /\ normalizeParts (JArray (normalizeParts content))
       = normalizeParts content
    /\ (forall items : list JsValue,
          List.length (normalizeParts (JArray items)) = List.length items).
Proof.
  intros content. split; [|split].
  - apply SessionFacts.normalizeParts_no_bareString.
  - apply SessionFacts.normalizeParts_parts,
      SessionFacts.normalizeParts_no_bareString.
  - intros items. unfold normalizeParts. simpl. apply length_map.
Qed.

Lemma turn_role (r : string) (ps : list Part) :
  Forall (fun c => role c = r) (turn r ps).
Proof. destruct ps; simpl; constructor; [reflexivity | constructor]. Qed.

Lemma turn_length (r : string) (ps : list Part) :
  (List.length (turn r ps) <= 1)%nat.
Proof. destruct ps; simpl; lia. Qed.

(** The history of a record is put together entry by entry: the history
    of two records one after the other is the two histories one after the
    other, so a record that grows only ever extends its history. *)
Theorem history_of_appended_records :
  forall before after : list MessageRecord,
    messageRecordsToHistory (before ++ after)
    = messageRecordsToHistory before ++ messageRecordsToHistory after
    /\ (forall msg : MessageRecord,
          messageRecordsToHistory (before ++ [msg])
          = messageRecordsToHistory before
              ++ messageRecordsToHistory [msg]).
Proof.
  intros before after. split.
  - unfold messageRecordsToHistory. rewrite fold_left_app.
    rewrite (SessionFacts.fold_processMessage after
               (fold_left processMessage before [])).
    now rewrite (SessionFacts.fold_processMessage after []).
  - intros msg. unfold messageRecordsToHistory. rewrite fold_left_app.
    simpl. rewrite !SessionFacts.processMessage_entryTurns. reflexivity.
Qed.

(** Every reconstructed turn has the role user or model, and a record
    gives at most one turn per user entry and two per model entry. *)
Theorem history_roles_and_size :
  forall msgs : list MessageRecord,
    Forall (fun c => role c = "user" \/ role c = "model")
      (messageRecordsToHistory msgs)
    /\ (List.length (messageRecordsToHistory msgs)
        <= list_sum (List.map yieldsTurns msgs))%nat.
Proof.
  intros msgs. rewrite SessionFacts.history_flat_map.
  induction msgs as [|m msgs [IHrole IHsize]]; simpl.
  - split; [constructor | lia].
  - split.
    + apply Forall_app. split; [|exact IHrole].
      unfold entryTurns. destruct (msg_type m); try constructor.
      * eapply Forall_impl; [|apply (turn_role "user")].
        intros c Hc. now left.
      * apply Forall_app. split.
        -- eapply Forall_impl; [|apply (turn_role "model")].
           intros c Hc. now right.
        -- eapply Forall_impl; [|apply (turn_role "user")].
           intros c Hc. now left.
    + rewrite length_app.
      assert (List.length (entryTurns m) <= yieldsTurns m)%nat; [|lia].
      unfold entryTurns, yieldsTurns. destruct (msg_type m); simpl; try lia.
      * apply turn_length.
      * rewrite length_app.
        pose proof (turn_length "model" (modelPartsOf m)).
        pose proof (turn_length "user" (resultPartsOf m)). lia.
Qed.


(** On values that have the declared type, the loop on the raw value
    does what the typed loop does. *)

Lemma callPart_typed (tc : JsValue) (call : ToolCallRecord) :
  readToolCall tc = Some call ->
  callPart tc = Normal (functionCallPart call)
  /\ getProp tc "result" = Normal (tc_result call).
Proof.
  destruct tc as [| |b|n|s|items|fields]; try discriminate. simpl.
  unfold callPart. simpl.
  destruct (lookupField "id" fields); try discriminate.
  destruct (lookupField "name" fields); try discriminate.
  intros H. injection H as <-. split; reflexivity.
Qed.

Lemma toolCalls_typed (items : list JsValue) (tcs : list ToolCallRecord) :
  readAll readToolCall items = Some tcs ->
  mapM callPart items = Normal (List.map functionCallPart tcs)
  /\ anyResult items
     = Normal (existsb (fun tc => notNullish (tc_result tc)) tcs)
  /\ resultParts items
     = Normal (flat_map
                 (fun tc =>
                    if notNullish (tc_result tc)
                    then normalizeParts (tc_result tc) else []) tcs).
Proof.
  revert tcs. induction items as [|tc items IH]; intros tcs; simpl.
  - intros H. injection H as <-. repeat split.
  - destruct (readToolCall tc) as [call|] eqn:Hcall; [|discriminate].
    destruct (readAll readToolCall items) as [calls|]; [|discriminate].
    intros H. injection H as <-.
    destruct (callPart_typed tc call Hcall) as [Hpart Hresult].
    destruct (IH calls eq_refl) as [Hparts [Hany Hresults]].
    rewrite Hpart, Hresult, Hparts, Hany, Hresults. simpl.
    repeat split. now destruct (notNullish (tc_result call)).
Qed.

Lemma readType_cases (type : JsValue) (t : MessageType) :
  readType type = Some t ->
  type = JString match t with
                 | MsgUser => "user"
                 | MsgGemini => "gemini"
                 | MsgInfo => "info"
                 | MsgError => "error"
                 | MsgWarning => "warning"
                 end.
Proof.
  unfold readType, isType.
  destruct type as [| |b|n|s|items|fields]; try discriminate.
  destruct (String.eqb_spec s "user");
    [intros H; injection H as <-; now subst|].
  destruct (String.eqb_spec s "gemini");
    [intros H; injection H as <-; now subst|].
  destruct (String.eqb_spec s "info");
    [intros H; injection H as <-; now subst|].
  destruct (String.eqb_spec s "error");
    [intros H; injection H as <-; now subst|].
  destruct (String.eqb_spec s "warning");
    [intros H; injection H as <-; now subst|].
  discriminate.
Qed.

Lemma processJson_typed (history : list Content) (raw : JsValue)
  (msg : MessageRecord) :
  readMessage raw = Some msg ->
  processJson history raw = Normal (processMessage history msg).
Proof.
  destruct raw as [| |b|n|s|items|fields]; try discriminate. simpl.
  destruct (readType (lookupField "type" fields)) as [t|] eqn:Ht;
    [|discriminate].
  apply readType_cases in Ht. unfold processJson. simpl. rewrite Ht.
  destruct (lookupField "toolCalls" fields) as [| |b|n|s|calls|fs] eqn:Hc;
    try discriminate.
  - intros H. injection H as <-. unfold processMessage. simpl.
    destruct t; simpl; try rewrite Hc; simpl; try reflexivity.
    now rewrite app_nil_r.
  - intros H. injection H as <-. unfold processMessage. simpl.
    destruct t; simpl; try rewrite Hc; simpl; try reflexivity.
    now rewrite app_nil_r.
  - destruct (readAll readToolCall calls) as [tcs|] eqn:Htcs;
      [|discriminate].
    intros H. injection H as <-. unfold processMessage. simpl.
    destruct (toolCalls_typed calls tcs Htcs) as [Hparts [Hany Hresults]].
    destruct t; simpl; try rewrite Hc; simpl; try reflexivity.
    rewrite Hparts, Hany. simpl.
    rewrite SessionFacts.push_each.
    destruct (existsb (fun tc => notNullish (tc_result tc)) tcs);
      [|reflexivity].
    rewrite Hresults. simpl. now rewrite SessionFacts.push_spread.
Qed.

Lemma foldJson_typed (items : list JsValue) (msgs : list MessageRecord)
  (history : list Content) :
  readAll readMessage items = Some msgs ->
  foldJson history items = Normal (fold_left processMessage msgs history).
Proof.
  revert msgs history.
  induction items as [|raw items IH]; intros msgs history; simpl.
  - intros H. now injection H as <-.
  - destruct (readMessage raw) as [msg|] eqn:Hmsg; [|discriminate].
    destruct (readAll readMessage items) as [rest|]; [|discriminate].
    intros H. injection H as <-.
    rewrite (processJson_typed history raw msg Hmsg). simpl.
    now apply IH.
Qed.

Lemma historyOfJson_typed (messages : JsValue) (msgs : list MessageRecord) :
  readMessages messages = Some msgs ->
  historyOfJson messages = Normal (messageRecordsToHistory msgs).
Proof.
  destruct messages as [| |b|n|s|items|fields]; try discriminate. simpl.
  unfold historyOfJson. simpl. apply foldJson_typed.
Qed.

Section ListingLaws.

Variable SESSION_FILE_PREFIX : string.
Variable JSON_parse : string -> Completion JsValue.
Variable localeCompare : string -> string -> Z.
Variable path_join : string -> string -> string.

Let listing :=
  listSessions SESSION_FILE_PREFIX JSON_parse localeCompare path_join.
Let readInfo := readSessionInfo JSON_parse path_join.

Lemma listed_Forall2 (projectTempDir : string) (fs : FileSystem) :
  Forall2
    (fun file session =>
       readInfo fs (path_join projectTempDir "chats") file = Normal session)
    (filter (decodes JSON_parse path_join fs (path_join projectTempDir "chats"))
       (sort (fun a b => localeCompare b a)
          (filter (isSessionFile SESSION_FILE_PREFIX)
             (directoryFiles fs (path_join projectTempDir "chats")))))
    (listing projectTempDir fs).
Proof.
  unfold listing, listSessions, directoryFiles.
  destruct (readdir fs (path_join projectTempDir "chats")) as [files|e].
  - rewrite (SessionFacts.push_decoded JSON_parse path_join). simpl.
    apply SessionFacts.decoded_Forall2.
  - constructor.
Qed.

Lemma Forall2_In_r {A B : Type} (R : A -> B -> Prop) (l : list A)
  (l' : list B) (y : B) :
  Forall2 R l l' -> In y l' -> exists x, In x l /\ R x y.
Proof.
  induction 1 as [|a b l l' Hab _ IH]; intros Hin; [contradiction|].
  destruct Hin as [<- | Hin].
  - exists a. split; [now left | exact Hab].
  - destruct (IH Hin) as [x [Hx Hr]]. exists x. split; [now right | exact Hr].
Qed.

(** [listSessions] lists nothing but session files of the chats
    directory: every listed session was read from a directory entry
    whose name starts with the prefix and ends in .json, and carries that
    file's path; there are no more sessions than directory entries, and
    none when the directory cannot be read. *)
Theorem listSessions_only_session_files :
  forall (projectTempDir : string) (fs : FileSystem),
    let chatsDir := path_join projectTempDir "chats" in
    (forall session : SessionInfo,
       In session (listing projectTempDir fs) ->
       exists file : string,
         In file (directoryFiles fs chatsDir)
         /\ startsWith file SESSION_FILE_PREFIX = true
         /\ endsWith file ".json" = true
         /\ filePath session = path_join chatsDir file
         /\ readInfo fs chatsDir file = Normal session)
    /\ (List.length (listing projectTempDir fs)
        <= List.length (directoryFiles fs chatsDir))%nat
    /\ (forall e : Thrown,
          readdir fs chatsDir = Throw e -> listing projectTempDir fs = []).
Proof.
  intros projectTempDir fs chatsDir.
  pose proof (listed_Forall2 projectTempDir fs) as Hlisted.
  fold chatsDir in Hlisted. split; [|split].
  - intros session Hin.
    destruct (Forall2_In_r _ _ _ _ Hlisted Hin) as [file [Hfile Hread]].
    exists file. apply filter_In in Hfile. destruct Hfile as [Hfile _].
    apply (Permutation_in _ (SessionFacts.sort_perm _ _)) in Hfile.
    apply filter_In in Hfile. destruct Hfile as [Hfile Hname].
    unfold isSessionFile in Hname. apply andb_true_iff in Hname.
    destruct Hname as [Hpre Hsuf].
    repeat split; try assumption.
    now apply (SessionFacts.readInfo_filePath JSON_parse path_join fs).
  - rewrite <- (Forall2_length Hlisted).
    eapply Nat.le_trans; [apply filter_length_le|].
    rewrite (Permutation_length (SessionFacts.sort_perm _ _)).
    apply filter_length_le.
  - intros e He. unfold listing, listSessions. fold chatsDir. now rewrite He.
Qed.

Lemma read_then_load (fs : FileSystem) (chatsDir file : string)
  (session : SessionInfo) :
  readInfo fs chatsDir file = Normal session ->
  exists conversation : JsValue,
    loadSession JSON_parse fs (filePath session)
    = Normal (conversation, filePath session)
    /\ getProp conversation "sessionId" = Normal (sessionId session)
    /\ getProp conversation "startTime" = Normal (startTime session)
    /\ getProp conversation "lastUpdated" = Normal (lastUpdated session)
    /\ getProp conversation "summary" = Normal (summary session).
Proof.
  intros Hread.
  destruct (SessionFacts.readInfo_fields JSON_parse path_join fs _ _ _ Hread)
    as [raw [conv [messages
         [Hraw [Hconv [_ [Hsid [Hpath [Hst [Hlu [_ Hsm]]]]]]]]]]].
  exists conv. unfold loadSession, bind.
  rewrite Hpath, Hraw, Hconv. repeat split; assumption.
Qed.

(** Every listed session can be loaded: on the same files, [loadSession]
    of a listed session's path returns the record the listing was read
    from, under the same path. *)
Theorem listed_sessions_load :
  forall (projectTempDir : string) (fs : FileSystem) (session : SessionInfo),
    In session (listing projectTempDir fs) ->
    exists conversation : JsValue,
      loadSession JSON_parse fs (filePath session)
      = Normal (conversation, filePath session)
      /\ getProp conversation "sessionId" = Normal (sessionId session)
      /\ getProp conversation "startTime" = Normal (startTime session)
      /\ getProp conversation "lastUpdated" = Normal (lastUpdated session)
      /\ getProp conversation "summary" = Normal (summary session).
Proof.
  intros projectTempDir fs session Hin.
  destruct (Forall2_In_r _ _ _ _ (listed_Forall2 projectTempDir fs) Hin)
    as [file [_ Hread]].
  now apply (read_then_load fs (path_join projectTempDir "chats") file).
Qed.

Lemma find_first {A : Type} (f : A -> bool) (l : list A) (x : A) :
  find f l = Some x ->
  exists before after : list A,
    l = before ++ x :: after
    /\ Forall (fun y => f y = false) before
    /\ f x = true.
Proof.
  induction l as [|y l IH]; simpl; [discriminate|].
  destruct (f y) eqn:Hy.
  - intros H. injection H as <-. exists [], l. repeat split; auto.
  - intros H. destruct (IH H) as [before [after [-> [Hbefore Hx]]]].
    exists (y :: before), after. repeat split; auto.
Qed.

Lemma find_nothing {A : Type} (f : A -> bool) (l : list A) :
  find f l = None <-> Forall (fun y => f y = false) l.
Proof.
  induction l as [|y l IH]; simpl.
  - split; auto.
  - destruct (f y) eqn:Hy; split.
    + discriminate.
    + intros H. inversion H; subst. congruence.
    + intros H. constructor; [exact Hy | now apply IH].
    + intros H. inversion H; subst. now apply IH.
Qed.

Variable World : Type.
Variable resumeChat :
  list Content -> JsValue * string -> World -> Completion unit * World.

(** The resume block of [initialize] on unchanged files.  Without an id,
    with the empty one, or with an id that no listed session has, nothing
    is resumed and nothing fails.  Otherwise the first (newest) listed
    session with the id is loaded, which does not fail, its record
    carries the id, and [resumeChat] is handed the reconstruction of the
    record's messages together with the record; the block fails only
    where that reconstruction or [resumeChat] throws.  For messages that
    have the declared type the reconstruction is
    [messageRecordsToHistory] of them. *)
Theorem resume_loads_the_newest_match :
  forall (id : string) (projectTempDir : string) (fs : FileSystem)
    (w : World),
    let resume :=
      resumeSession World SESSION_FILE_PREFIX JSON_parse localeCompare
        path_join resumeChat in
    resume None projectTempDir fs w = (Normal tt, w)
    /\ resume (Some "") projectTempDir fs w = (Normal tt, w)
    /\ (id <> "" ->
        (Forall (fun s => hasSessionId id s = false)
           (listing projectTempDir fs) ->
         resume (Some id) projectTempDir fs w = (Normal tt, w))
        /\ (forall (before : list SessionInfo) (target : SessionInfo)
              (after : list SessionInfo),
              listing projectTempDir fs = before ++ target :: after ->
              Forall (fun s => hasSessionId id s = false) before ->
              hasSessionId id target = true ->
              exists conversation : JsValue,
                loadSession JSON_parse fs (filePath target)
                = Normal (conversation, filePath target)
                /\ getProp conversation "sessionId" = Normal (JString id)
                /\ resume (Some id) projectTempDir fs w
                   = match resumedHistory
                             (conversation, filePath target) with
                     | Throw e => (Throw e, w)
                     | Normal history =>
                         resumeChat history
                           (conversation, filePath target) w
                     end
                /\ (forall (messages : JsValue)
                      (msgs : list MessageRecord),
                      getProp conversation "messages" = Normal messages ->
                      readMessages messages = Some msgs ->
                      resume (Some id) projectTempDir fs w
                      = resumeChat (messageRecordsToHistory msgs)
                          (conversation, filePath target) w))).
Proof.
  intros id projectTempDir fs w resume.
  split; [reflexivity|]. split; [reflexivity|].
  intros Hid. apply String.eqb_neq in Hid.
  unfold resume, resumeSession. rewrite Hid. fold listing. split.
  - intros Hnone. apply find_nothing in Hnone. now rewrite Hnone.
  - intros before target after Hlist Hbefore Htarget.
    assert (Hfind : find (hasSessionId id) (listing projectTempDir fs)
                    = Some target).
    { rewrite Hlist. clear Hlist.
      induction Hbefore as [|s before Hs _ IH]; simpl.
      - now rewrite Htarget.
      - now rewrite Hs. }
    assert (Hin : In target (listing projectTempDir fs)).
    { rewrite Hlist. apply in_or_app. right. now left. }
    destruct (Forall2_In_r _ _ _ _ (listed_Forall2 projectTempDir fs) Hin)
      as [file [_ Hread]].
    destruct (read_then_load fs _ _ _ Hread) as [conv [Hload [Hsid _]]].
    assert (Hsame : sessionId target = JString id).
    { unfold hasSessionId in Htarget.
      destruct (sessionId target); try discriminate.
      apply String.eqb_eq in Htarget. now subst. }
    exists conv. rewrite Hfind, Hload.
    split; [reflexivity|]. split; [now rewrite Hsid, Hsame|].
    split; [reflexivity|].
    intros messages msgs Hmessages Hmsgs.
    unfold resumedHistory. simpl. rewrite Hmessages. simpl.
    now rewrite (historyOfJson_typed messages msgs Hmsgs).
Qed.



Hypothesis localeCompare_total :
  forall a b, (localeCompare a b <= 0 \/ localeCompare b a <= 0)%Z.
Hypothesis localeCompare_trans :
  forall a b c,
    (localeCompare a b <= 0 -> localeCompare b c <= 0 ->
     localeCompare a c <= 0)%Z.


End ListingLaws.


(** The listed sample session loads from its path. *)
Lemma listed_sessions_load_witness :
  exists conversation : JsValue,
    loadSession sampleParse sampleFs
      "/tmp/project/chats/session-2025-01-01.json"
    = Normal (conversation, "/tmp/project/chats/session-2025-01-01.json")
    /\ getProp conversation "sessionId" = Normal (JString "s-1")
    /\ getProp conversation "startTime"
       = Normal (JString "2025-01-01T00:00:00Z")
    /\ getProp conversation "lastUpdated"
       = Normal (JString "2025-01-01T00:05:00Z")
    /\ getProp conversation "summary" = Normal JUndefined.
Proof.
  exact (listed_sessions_load "session-" sampleParse codeUnitCompare
           sampleJoin "/tmp/project" sampleFs sampleSession
           (or_introl eq_refl)).
Defined.


(** Resuming the sample session by its id: the record is loaded and
    handed on with the reconstruction of its messages. *)
Lemma resume_loads_the_newest_match_witness :
  let resumeChat (history : list Content) (resumed : JsValue * string)
        (seeded : list (list Content)) :=
    (Normal tt, history :: seeded) in
  let resume :=
    resumeSession (list (list Content)) "session-" sampleParse
      codeUnitCompare sampleJoin resumeChat in
  exists conversation : JsValue,
    loadSession sampleParse sampleFs (filePath sampleSession)
    = Normal (conversation, filePath sampleSession)
    /\ getProp conversation "sessionId" = Normal (JString "s-1")
    /\ resume (Some "s-1") "/tmp/project" sampleFs []
       = match resumedHistory (conversation, filePath sampleSession) with
         | Throw e => (Throw e, [])
         | Normal history =>
             resumeChat history (conversation, filePath sampleSession) []
         end
    /\ (forall (messages : JsValue) (msgs : list MessageRecord),
          getProp conversation "messages" = Normal messages ->
          readMessages messages = Some msgs ->
          resume (Some "s-1") "/tmp/project" sampleFs []
          = resumeChat (messageRecordsToHistory msgs)
              (conversation, filePath sampleSession) []).
Proof.
  intros resumeChat resume.
  refine (proj2 (proj2 (proj2 (resume_loads_the_newest_match "session-"
                                 sampleParse codeUnitCompare sampleJoin
                                 (list (list Content)) resumeChat
                                 "s-1" "/tmp/project" sampleFs [])) _)
            [] sampleSession [] eq_refl (Forall_nil _) eq_refl).
  discriminate.
Defined.

End SessionLaws.

(** ** More on tools and the scoped registry *)

Module ToolLaws.

Import Tool Registry ToolSamples ToolLawSamples.

Section ExecuteLaws.

Variable World : Type.
Variable SessionContext : Type.
Variable JSON_stringify : JsValue -> Completion (option string).


(** The registry scoped to a round resolves the same names as the live
    one; a tool of the core is handed out as it is; a tool of this
    package is handed out bound to the round's context, with the
    registered action, name and error flag; scoping again for a later
    round leaves nothing of the earlier context. *)
Theorem scoped_registry_binds_context :
  forall (registry : ToolRegistry World SessionContext)
    (ctx : SessionContext) (name : string),
    (buildScopedRegistry registry ctx name = None <-> registry name = None)
    /\ (forall coreTool : string,
          registry name = Some (CoreEntry coreTool) ->
          buildScopedRegistry registry ctx name = Some (CoreEntry coreTool))
    /\ (forall tool : SdkTool World SessionContext,
          registry name = Some (SdkEntry tool) ->
          exists scoped : SdkTool World SessionContext,
            buildScopedRegistry registry ctx name = Some (SdkEntry scoped)
            /\ def scoped = def tool
            /\ forall (params : JsValue) (toolName : option string),
                 inv_context (createInvocation scoped params toolName)
                 = Some ctx
                 /\ inv_action (createInvocation scoped params toolName)
                    = action (def tool)
                 /\ inv_sendErrorsToModel
                      (createInvocation scoped params toolName)
                    = inv_sendErrorsToModel
                        (createInvocation tool params toolName)
                 /\ inv_toolName (createInvocation scoped params toolName)
                    = inv_toolName (createInvocation tool params toolName))
    /\ (forall earlier : SessionContext,
          buildScopedRegistry (buildScopedRegistry registry earlier) ctx name
          = buildScopedRegistry registry ctx name).
Proof.
  intros registry ctx name. unfold buildScopedRegistry.
  split; [|split; [|split]].
  - destruct (registry name) as [[tool|coreTool]|]; split; congruence.
  - intros coreTool ->. reflexivity.
  - intros tool ->. exists (withContext tool ctx).
    repeat split; reflexivity.
  - intros earlier. destruct (registry name) as [[tool|coreTool]|];
      reflexivity.
Qed.

End ExecuteLaws.


End ToolLaws.

(** ** More on the turn loop *)

Module LoopLaws.

Import Session Agent AgentTerms AgentSamples.

Section ExtractLaws.

Variable JSON_parse : string -> Completion JsValue.

Let extract := extractToolCalls JSON_parse.

(** When [extractToolCalls] returns, it returns one call per tool-call
    request of the stream, in stream order, with the request's call id
    and name, marked as not client-initiated and with the session id as
    prompt id; arguments that came as a string are the parsed string,
    other arguments are kept; events of other kinds give no call. *)
Theorem extractToolCalls_one_call_per_request :
  forall (events : list ServerGeminiStreamEvent) (sessionId : string)
    (calls : list ToolCallRequestInfo),
    extract events sessionId = Normal calls ->
    List.map callId calls = List.map callId (requestsOf events)
    /\ List.map call_name calls = List.map call_name (requestsOf events)
    /\ Forall (fun call => isClientInitiated call = false
                           /\ prompt_id call = sessionId) calls
    /\ Forall2 (argsDecoded JSON_parse) (requestsOf events) calls.
Proof.
  unfold extract. intros events sessionId.
  induction events as [|event events IH]; intros calls H; simpl in H.
  - injection H as <-. simpl. repeat split; constructor.
  - destruct event as [value|toolCall|type value]; simpl;
      try (now apply IH).
    unfold bind in H.
    destruct (match args toolCall with
              | JString s => JSON_parse s
              | a => Normal a
              end) as [decoded|e] eqn:Hargs; [|discriminate].
    destruct (extractToolCalls JSON_parse events sessionId) as [made|e];
      [|discriminate].
    injection H as <-.
    destruct (IH made eq_refl) as [Hids [Hnames [Hmarks Hdecoded]]].
    simpl. repeat split.
    + now rewrite Hids.
    + now rewrite Hnames.
    + constructor; [split; reflexivity | exact Hmarks].
    + constructor; [|exact Hdecoded].
      unfold argsDecoded. simpl.
      destruct (args toolCall); (exact Hargs || now injection Hargs).
Qed.

(** [extractToolCalls] returns exactly when every argument string of a
    request parses; otherwise it throws what [JSON.parse] threw on the
    arguments of some request. *)
Theorem extractToolCalls_fails_on_unparsable_args :
  forall (events : list ServerGeminiStreamEvent) (sessionId : string),
    ((exists calls, extract events sessionId = Normal calls)
     <-> Forall (argsDecodable JSON_parse) (requestsOf events))
    /\ (forall e : Thrown,
          extract events sessionId = Throw e ->
          exists (asked : ToolCallRequestInfo) (s : string),
            In asked (requestsOf events)
            /\ args asked = JString s
            /\ JSON_parse s = Throw e).
Proof.
  unfold extract. intros events sessionId.
  induction events as [|event events [[IHret IHall] IHthrow]]; simpl.
  - split; [split|].
    + intros _. constructor.
    + intros _. now exists [].
    + intros e H. discriminate.
  - destruct event as [value|toolCall|type value]; simpl;
      try (split; [split|]; assumption).
    unfold bind.
    destruct (match args toolCall with
              | JString s => JSON_parse s
              | a => Normal a
              end) as [decoded|e0] eqn:Hargs.
    + assert (Hok : argsDecodable JSON_parse toolCall).
      { unfold argsDecodable. destruct (args toolCall); try exact I.
        now exists decoded. }
      destruct (extractToolCalls JSON_parse events sessionId) as [made|e1].
      * split; [split|].
        -- intros _. constructor; [exact Hok|]. apply IHret. now exists made.
        -- intros _. eexists. reflexivity.
        -- intros e H. discriminate.
      * split; [split|].
        -- intros [calls H]. discriminate.
        -- intros Hall. inversion Hall as [|x l _ Hrest]; subst.
           destruct (IHall Hrest) as [calls H]. discriminate.
        -- intros e H. injection H as <-.
           destruct (IHthrow e1 eq_refl) as [asked [s [Hin [Hs Hp]]]].
           exists asked, s. split; [now right | split; assumption].
    + split; [split|].
      * intros [calls H]. discriminate.
      * intros Hall. inversion Hall as [|x l Hbad _]; subst.
        unfold argsDecodable in Hbad.
        destruct (args toolCall); try discriminate.
        destruct Hbad as [v Hv]. rewrite Hv in Hargs. discriminate.
      * intros e H. injection H as <-.
        destruct (args toolCall) eqn:Hs; try discriminate.
        exists toolCall, s. split; [now left | split; [exact Hs | exact Hargs]].
Qed.

Lemma extract_no_request (events : list ServerGeminiStreamEvent)
  (sessionId : string) :
  requestsOf events = [] -> extract events sessionId = Normal [].
Proof.
  unfold extract. induction events as [|event events IH]; simpl.
  - reflexivity.
  - destruct event; (assumption || discriminate).
Qed.

Lemma extract_ids (events : list ServerGeminiStreamEvent)
  (sessionId : string) (calls : list ToolCallRequestInfo) :
  extract events sessionId = Normal calls ->
  List.map callId calls = List.map callId (requestsOf events)
  /\ List.map call_name calls = List.map call_name (requestsOf events).
Proof.
  unfold extract. revert calls.
  induction events as [|event events IH]; intros calls H; simpl in H.
  - injection H as <-. split; reflexivity.
  - destruct event as [value|toolCall|type value]; simpl;
      try (now apply IH).
    unfold bind in H.
    destruct (match args toolCall with
              | JString s => JSON_parse s
              | a => Normal a
              end) as [decoded|e]; [|discriminate].
    destruct (extractToolCalls JSON_parse events sessionId) as [made|e];
      [|discriminate].
    injection H as <-. destruct (IH made eq_refl) as [Hids Hnames].
    simpl. now rewrite Hids, Hnames.
Qed.

End ExtractLaws.

Lemma streams_of_yields (events : list ServerGeminiStreamEvent) :
  filter isStream (List.map Yield events) = [].
Proof. induction events as [|e events IH]; simpl; [reflexivity | exact IH]. Qed.

Lemma schedules_of_yields (events : list ServerGeminiStreamEvent) :
  filter isSchedule (List.map Yield events) = [].
Proof. induction events as [|e events IH]; simpl; [reflexivity | exact IH]. Qed.

Lemma chained_yields (events : list ServerGeminiStreamEvent)
  (rest : list Step) :
  chained (List.map Yield events ++ rest) <-> chained rest.
Proof. induction events as [|e events IH]; simpl; [reflexivity | exact IH]. Qed.

Lemma answered_yields (events pending : list ServerGeminiStreamEvent)
  (rest : list Step) :
  answered pending (List.map Yield events ++ rest)
  <-> answered (pending ++ events) rest.
Proof.
  revert pending. induction events as [|e events IH]; intros pending; simpl.
  - now rewrite app_nil_r.
  - rewrite IH, <- app_assoc. reflexivity.
Qed.

Section RoundLaws.

Variable World : Type.
Variable getWorkingDir : World -> string.
Variable toISOString : World -> string.
Variable getHistory : World -> list Content.
Variable sendMessageStream :
  list Part -> World ->
  list ServerGeminiStreamEvent * option Thrown * World.
Variable scheduleAgentTools :
  list ToolCallRequestInfo -> SessionContext -> World ->
  Completion (list CompletedToolCall) * World.
Variable JSON_parse : string -> Completion JsValue.

Let loop :=
  turnLoop World getWorkingDir toISOString getHistory sendMessageStream
    scheduleAgentTools JSON_parse.

(** How a round ends the send: a stream without a tool-call request ends
    it after that round, with the stream's events yielded as they came
    and nothing scheduled; a stream that fails, or request arguments that
    do not parse, reject it with that error, after the events read were
    yielded and before anything is scheduled. *)
Theorem round_without_tool_calls_ends_the_send :
  forall (fuel : nat) (sessionId : string) (input : list Part)
    (w w1 : World) (events : list ServerGeminiStreamEvent),
    (sendMessageStream input w = (events, None, w1) ->
     requestsOf events = [] ->
     loop (S fuel) sessionId input w
     = (SendMessageStream input :: List.map Yield events, Returned, w1))
    /\ (forall e : Thrown,
          sendMessageStream input w = (events, Some e, w1) ->
          loop (S fuel) sessionId input w
          = (SendMessageStream input :: List.map Yield events,
             Rejected e, w1))
    /\ (forall e : Thrown,
          sendMessageStream input w = (events, None, w1) ->
          extractToolCalls JSON_parse events sessionId = Throw e ->
          loop (S fuel) sessionId input w
          = (SendMessageStream input :: List.map Yield events,
             Rejected e, w1)).
Proof.
  intros fuel sessionId input w w1 events. unfold loop. simpl.
  split; [|split].
  - intros -> Hnone. now rewrite (extract_no_request JSON_parse _ _ Hnone).
  - intros e ->. reflexivity.
  - intros e -> ->. reflexivity.
Qed.

(** In every run of the loop, whatever the bound: a batch is scheduled
    only for the tool-call requests yielded in its round, and a batch
    that completed is followed at once by the stream of its response
    parts. *)
Theorem rounds_answer_their_requests :
  forall (fuel : nat) (sessionId : string) (input : list Part) (w : World),
    answered [] (fst (fst (loop fuel sessionId input w)))
    /\ chained (fst (fst (loop fuel sessionId input w))).
Proof.
  intros fuel sessionId.
  assert (Hany : forall input w pending,
             answered pending (fst (fst (loop fuel sessionId input w)))
             /\ chained (fst (fst (loop fuel sessionId input w))));
    [|intros input w; apply Hany].
  unfold loop.
  induction fuel as [|fuel IH]; intros input w pending; simpl;
    [split; exact I|].
  destruct (sendMessageStream input w) as [[events failure] w1].
  destruct failure as [e|]; simpl.
  { split.
    - rewrite <- (app_nil_r (List.map Yield events)).
      now apply answered_yields.
    - rewrite <- (app_nil_r (List.map Yield events)).
      now apply chained_yields. }
  destruct (extractToolCalls JSON_parse events sessionId)
    as [[|c cs]|e] eqn:Hcalls; simpl.
  - split.
    + rewrite <- (app_nil_r (List.map Yield events)).
      now apply answered_yields.
    + rewrite <- (app_nil_r (List.map Yield events)).
      now apply chained_yields.
  - destruct (extract_ids JSON_parse _ _ _ Hcalls) as [Hids Hnames].
    destruct (scheduleAgentTools (c :: cs) _ w1) as [[completed|e] w2].
    + pose proof (IH (functionResponses completed) w2) as IHlater.
      destruct fuel as [|fuel].
      * simpl. split.
        -- apply answered_yields. simpl.
           repeat split; (discriminate || assumption).
        -- apply chained_yields. simpl. tauto.
      * assert (Hstart : exists rest,
                   fst (fst (turnLoop World getWorkingDir toISOString
                               getHistory sendMessageStream
                               scheduleAgentTools JSON_parse (S fuel)
                               sessionId (functionResponses completed) w2))
                   = SendMessageStream (functionResponses completed) :: rest)
          by apply AgentFacts.loop_starts_streaming.
        destruct (turnLoop _ _ _ _ _ _ _ (S fuel) sessionId _ w2)
          as [[later o] w3].
        simpl in *. destruct Hstart as [rest ->]. split.
        -- apply answered_yields. simpl.
           repeat split; try (discriminate || assumption).
           apply (IHlater []).
        -- apply chained_yields. simpl. split; [reflexivity|].
           apply (IHlater []).
    + simpl. split.
      * apply answered_yields. simpl.
        repeat split; (discriminate || assumption).
      * apply chained_yields. reflexivity.
  - split.
    + rewrite <- (app_nil_r (List.map Yield events)).
      now apply answered_yields.
    + rewrite <- (app_nil_r (List.map Yield events)).
      now apply chained_yields.
Qed.

(** Streams and batches alternate: a run never streams more often than
    its bound, schedules at most as often as it streams, has streamed
    once more than it scheduled when it returns, and stops for the bound
    only right after a batch. *)
Theorem streams_and_batches_alternate :
  forall (fuel : nat) (sessionId : string) (input : list Part) (w : World),
    let steps := fst (fst (loop fuel sessionId input w)) in
    let outcome := snd (fst (loop fuel sessionId input w)) in
    let streams := List.length (filter isStream steps) in
    let batches := List.length (filter isSchedule steps) in
    (streams <= fuel)%nat
    /\ (batches <= streams <= batches + 1)%nat
    /\ (outcome = Returned -> streams = (batches + 1)%nat)
    /\ (outcome = Running -> streams = fuel /\ batches = fuel).
Proof.
  intros fuel sessionId. unfold loop.
  induction fuel as [|fuel IH]; intros input w; simpl.
  - split; [lia|]. split; [lia|]. split; [discriminate | now split].
  - destruct (sendMessageStream input w) as [[events failure] w1].
    destruct failure as [e|]; simpl.
    { rewrite streams_of_yields, schedules_of_yields. simpl.
      split; [lia|]. split; [lia|]. split; intros H; discriminate. }
    destruct (extractToolCalls JSON_parse events sessionId)
      as [[|c cs]|e]; simpl.
    + rewrite streams_of_yields, schedules_of_yields. simpl.
      split; [lia|]. split; [lia|]. split; [reflexivity | discriminate].
    + destruct (scheduleAgentTools (c :: cs) _ w1) as [[completed|e] w2].
      * specialize (IH (functionResponses completed) w2).
        destruct (turnLoop _ _ _ _ _ _ _ fuel sessionId _ w2)
          as [[later o] w3].
        simpl in *.
        rewrite !filter_app, streams_of_yields, schedules_of_yields.
        simpl. destruct IH as [H1 [H2 [H3 H4]]].
        split; [lia|]. split; [lia|]. split.
        -- intros Ho. specialize (H3 Ho). lia.
        -- intros Ho. destruct (H4 Ho). split; lia.
      * simpl. rewrite !filter_app, streams_of_yields, schedules_of_yields.
        simpl. split; [lia|]. split; [lia|]. split; intros H; discriminate.
    + rewrite streams_of_yields, schedules_of_yields. simpl.
      split; [lia|]. split; [lia|]. split; intros H; discriminate.
Qed.

End RoundLaws.

Section SendLaws.

Variable World : Type.
Variable initialize : World -> Completion unit * World.
Variable getSessionId : World -> string.
Variable getWorkingDir : World -> string.
Variable toISOString : World -> string.
Variable getHistory : World -> list Content.
Variable setUserMemory : string -> World -> World.
Variable updateSystemInstruction : World -> World.
Variable sendMessageStream :
  list Part -> World ->
  list ServerGeminiStreamEvent * option Thrown * World.
Variable scheduleAgentTools :
  list ToolCallRequestInfo -> SessionContext -> World ->
  Completion (list CompletedToolCall) * World.
Variable JSON_parse : string -> Completion JsValue.

Let send :=
  sendStream World initialize getSessionId getWorkingDir toISOString
    getHistory setUserMemory updateSystemInstruction sendMessageStream
    scheduleAgentTools JSON_parse.

(** A send either fails before the loop, with at most the call of the
    instructions function as its step, or is that call, if one is made,
    followed by the loop on the prompt. *)
Lemma send_cases (fuel : nat) (prompt : string) (agent : GeminiAgent World)
  (w : World) :
  (exists e w0,
     initialize w = (Throw e, w0)
     /\ send fuel prompt agent w = ([], Rejected e, agent, w0))
  \/ (exists u w0 f e w1,
        initialize w = (Normal u, w0)
        /\ instructionsLoaded agent = false
        /\ instructions agent = InstructionFunction f
        /\ f (buildContext World getWorkingDir toISOString getHistory
                (getSessionId w0) w0) w0 = (Throw e, w1)
        /\ send fuel prompt agent w
           = ([ResolveInstructions
                 (buildContext World getWorkingDir toISOString getHistory
                    (getSessionId w0) w0) (Throw e)],
              Rejected e, agent, w1))
  \/ (exists u w0 resolving agent' w',
        initialize w = (Normal u, w0)
        /\ filter isStream resolving = []
        /\ filter isSchedule resolving = []
        /\ send fuel prompt agent w
           = (resolving
                ++ fst (fst (turnLoop World getWorkingDir toISOString
                               getHistory sendMessageStream
                               scheduleAgentTools JSON_parse fuel
                               (getSessionId w0) [textPart prompt] w')),
              snd (fst (turnLoop World getWorkingDir toISOString
                          getHistory sendMessageStream
                          scheduleAgentTools JSON_parse fuel
                          (getSessionId w0) [textPart prompt] w')),
              agent',
              snd (turnLoop World getWorkingDir toISOString
                     getHistory sendMessageStream
                     scheduleAgentTools JSON_parse fuel
                     (getSessionId w0) [textPart prompt] w'))).
Proof.
  unfold send, sendStream.
  destruct (initialize w) as [[u|e0] w0] eqn:Hinit.
  - right. destruct (instructionsLoaded agent) eqn:Hloaded; simpl.
    + right. exists u, w0, [], agent, w0.
      destruct (turnLoop _ _ _ _ _ _ _ fuel _ _ w0) as [[ls o] w2].
      repeat split; reflexivity.
    + unfold resolveInstructions.
      destruct (instructions agent) as [s|f] eqn:Hinstr; simpl.
      * right. exists u, w0, [], agent, w0.
        destruct (turnLoop _ _ _ _ _ _ _ fuel _ _ w0) as [[ls o] w2].
        repeat split; reflexivity.
      * destruct (f _ w0) as [[text|e] w1] eqn:Hf; simpl.
        -- right.
           exists u, w0,
             [ResolveInstructions
                (buildContext World getWorkingDir toISOString getHistory
                   (getSessionId w0) w0) (Normal text)],
             {| instructions := InstructionFunction f;
                instructionsLoaded := true |},
             (updateSystemInstruction (setUserMemory text w1)).
           destruct (turnLoop _ _ _ _ _ _ _ fuel _ _ _) as [[ls o] w2].
           repeat split; reflexivity.
        -- left. exists u, w0, f, e, w1. repeat split; assumption.
  - left. exists e0, w0. split; reflexivity.
Qed.

(** The first stream of a send, if there is one, carries the prompt as
    one text part; a send that returns has streamed; and a send whose
    initialization fails, or whose instructions function throws, is
    rejected with that error without any stream or batch, the agent left
    as it was. *)
Theorem send_streams_the_prompt_first :
  forall (fuel : nat) (prompt : string) (agent : GeminiAgent World)
    (w : World),
    let steps := fst (fst (fst (send fuel prompt agent w))) in
    let outcome := snd (fst (fst (send fuel prompt agent w))) in
    (hd_error (filter isStream steps) = None
     \/ hd_error (filter isStream steps)
        = Some (SendMessageStream [textPart prompt]))
    /\ (outcome = Returned ->
        hd_error (filter isStream steps)
        = Some (SendMessageStream [textPart prompt]))
    /\ (forall (e : Thrown) (w0 : World),
          initialize w = (Throw e, w0) ->
          send fuel prompt agent w = ([], Rejected e, agent, w0))
    /\ (forall (u : unit) (w0 w1 : World) (e : Thrown)
          (f : SessionContext -> World -> Completion string * World),
          initialize w = (Normal u, w0) ->
          instructionsLoaded agent = false ->
          instructions agent = InstructionFunction f ->
          f (buildContext World getWorkingDir toISOString getHistory
               (getSessionId w0) w0) w0 = (Throw e, w1) ->
          outcome = Rejected e
          /\ filter isStream steps = []
          /\ filter isSchedule steps = []
          /\ snd (fst (send fuel prompt agent w)) = agent
          /\ snd (send fuel prompt agent w) = w1).
Proof.
  intros fuel prompt agent w steps outcome.
  assert (Hloop : forall sessionId w',
             let run :=
               turnLoop World getWorkingDir toISOString getHistory
                 sendMessageStream scheduleAgentTools JSON_parse fuel
                 sessionId [textPart prompt] w' in
             (hd_error (filter isStream (fst (fst run))) = None
              \/ hd_error (filter isStream (fst (fst run)))
                 = Some (SendMessageStream [textPart prompt]))
             /\ (snd (fst run) = Returned ->
                 hd_error (filter isStream (fst (fst run)))
                 = Some (SendMessageStream [textPart prompt]))).
  { intros sessionId w' run. unfold run. destruct fuel as [|fuel].
    - simpl. split; [now left | discriminate].
    - destruct (AgentFacts.loop_starts_streaming World getWorkingDir
                  toISOString getHistory sendMessageStream
                  scheduleAgentTools JSON_parse fuel sessionId
                  [textPart prompt] w') as [rest Hrest].
      rewrite Hrest. simpl. split; [now right | reflexivity]. }
  unfold steps, outcome. split; [|split; [|split]].
  - destruct (send_cases fuel prompt agent w)
      as [[e [w0 [Hinit Hsend]]]
         | [[u [w0 [f [e [w1 [Hinit [Hloaded [Hinstr [Hf Hsend]]]]]]]]]
           | [u [w0 [resolving [agent' [w' [Hinit [Hns [Hnb Hsend]]]]]]]]]];
      rewrite Hsend; simpl; try (now left).
    rewrite filter_app, Hns. simpl. apply Hloop.
  - destruct (send_cases fuel prompt agent w)
      as [[e [w0 [Hinit Hsend]]]
         | [[u [w0 [f [e [w1 [Hinit [Hloaded [Hinstr [Hf Hsend]]]]]]]]]
           | [u [w0 [resolving [agent' [w' [Hinit [Hns [Hnb Hsend]]]]]]]]]];
      rewrite Hsend; simpl; try discriminate.
    rewrite filter_app, Hns. simpl. apply Hloop.
  - intros e w0 Hinit. unfold send, sendStream. now rewrite Hinit.
  - intros u w0 w1 e f Hinit Hloaded Hinstr Hf.
    unfold send, sendStream. rewrite Hinit, Hloaded. simpl.
    unfold resolveInstructions. rewrite Hinstr, Hf. simpl.
    repeat split; reflexivity.
Qed.

End SendLaws.

(** The sample stream: one request, one call, its arguments parsed. *)
Lemma extractToolCalls_one_call_per_request_witness :
  List.map callId [saveNoteCall]
  = List.map callId
      (requestsOf [ContentEvent "Noting."; ToolCallRequestEvent saveNote])
  /\ List.map call_name [saveNoteCall]
     = List.map call_name
         (requestsOf [ContentEvent "Noting."; ToolCallRequestEvent saveNote])
  /\ Forall (fun call => isClientInitiated call = false
                         /\ prompt_id call = "session-1") [saveNoteCall]
  /\ Forall2 (argsDecoded sampleArgs)
       (requestsOf [ContentEvent "Noting."; ToolCallRequestEvent saveNote])
       [saveNoteCall].
Proof.
  exact (extractToolCalls_one_call_per_request sampleArgs
           [ContentEvent "Noting."; ToolCallRequestEvent saveNote]
           "session-1" [saveNoteCall] eq_refl).
Defined.

End LoopLaws.

(** ** More on the sub-agent bridge *)

Module BridgeLaws.

Import SubAgent Schema SubAgentTerms SubAgentSamples BridgeLawSamples.

Lemma textsOf_app (a b : list A2APart) :
  textsOf (a ++ b) = textsOf a ++ textsOf b.
Proof.
  induction a as [|p a IH]; simpl; [reflexivity|].
  destruct p; simpl; now rewrite ?IH.
Qed.

Lemma join_cons (sep x : string) (rest : list string) :
  rest <> [] -> join sep (x :: rest) = (x ++ sep ++ join sep rest)%string.
Proof. destruct rest; [congruence | reflexivity]. Qed.

Lemma join_app (sep : string) (a b : list string) :
  a <> [] -> b <> [] ->
  join sep (a ++ b) = (join sep a ++ sep ++ join sep b)%string.
Proof.
  intros Ha Hb. induction a as [|x a IH]; [congruence|].
  destruct a as [|y a].
  - simpl app. now rewrite join_cons.
  - rewrite <- app_comm_cons, join_cons by discriminate.
    rewrite IH by discriminate.
    rewrite (join_cons sep x (y :: a)) by discriminate.
    now rewrite !SubAgentFacts.append_assoc.
Qed.

(** The text taken from a part list ignores the parts that are not text,
    and the text of two lists one after the other is the two texts with a
    newline between them, or the one text when the other list has no
    text part. *)
Theorem extractTextFromParts_of_appended_parts :
  forall a b : list A2APart,
    extractTextFromParts (a ++ b)
    = match textsOf a, textsOf b with
      | [], _ => extractTextFromParts b
      | _, [] => extractTextFromParts a
      | _, _ =>
          (extractTextFromParts a ++ newline ++ extractTextFromParts b)%string
      end
    /\ (forall p : A2APart,
          isTextPart p = false ->
          extractTextFromParts (a ++ p :: b) = extractTextFromParts (a ++ b))
    /\ extractTextFromParts (filter isTextPart a) = extractTextFromParts a.
Proof.
  intros a b. rewrite !SubAgentFacts.extractTextFromParts_texts.
  split; [|split].
  - rewrite textsOf_app.
    destruct (textsOf a) as [|x xs] eqn:Ha; [reflexivity|].
    destruct (textsOf b) as [|y ys] eqn:Hb.
    + now rewrite app_nil_r.
    + now apply join_app.
  - intros p Hp. rewrite !SubAgentFacts.extractTextFromParts_texts.
    rewrite !textsOf_app. destruct p; (discriminate || reflexivity).
  - f_equal. induction a as [|p a IH]; simpl; [reflexivity|].
    destruct p; simpl; now rewrite ?IH.
Qed.

Lemma assignField_fresh (key : string) (value : JsValue)
  (fields : list (string * JsValue)) :
  ~ In key (List.map fst fields) ->
  assignField key value fields = fields ++ [(key, value)].
Proof.
  induction fields as [|[k v] fields IH]; simpl; [reflexivity|].
  intros Hfresh. destruct (k =? key) eqn:E.
  - apply String.eqb_eq in E. tauto.
  - rewrite IH; [reflexivity | tauto].
Qed.

Lemma schema_fold (entries : list (string * ZodType))
  (properties : list (string * JsValue)) (required : list string) :
  NoDup (List.map fst properties ++ List.map fst entries) ->
  fold_left schemaStep entries (properties, required)
  = (properties
       ++ List.map (fun entry => (fst entry, propertyOf (snd entry)))
            (declared entries),
     required ++ requiredKeys entries).
Proof.
  revert properties required.
  induction entries as [|[key z] entries IH]; intros properties required Hnd.
  - simpl. unfold requiredKeys. simpl. now rewrite !app_nil_r.
  - simpl. unfold setField, declared. simpl.
    destruct (key =? "__proto__") eqn:Eproto; simpl.
    + rewrite IH.
      * unfold requiredKeys, declared. simpl.
        destruct (zod_optional z); simpl; now rewrite <- ?app_assoc.
      * simpl in Hnd. now apply NoDup_remove_1 in Hnd.
    + rewrite assignField_fresh.
      * rewrite IH.
        -- unfold requiredKeys, declared. simpl.
           destruct (zod_optional z); simpl; now rewrite <- !app_assoc.
        -- rewrite map_app. simpl. rewrite <- app_assoc. exact Hnd.
      * simpl in Hnd. apply NoDup_remove_2 in Hnd.
        intros Hin. apply Hnd. apply in_or_app. now left.
Qed.

Lemma lookup_property (entries : list (string * ZodType)) (key : string)
  (z : ZodType) :
  NoDup (List.map fst entries) ->
  In (key, z) entries ->
  lookupField key
    (List.map (fun entry => (fst entry, propertyOf (snd entry))) entries)
  = propertyOf z.
Proof.
  induction entries as [|[k z'] entries IH]; intros Hnd Hin; [contradiction|].
  simpl. inversion Hnd as [|x l Hfresh Hrest]; subst.
  destruct Hin as [Heq | Hin].
  - injection Heq as -> ->. now rewrite String.eqb_refl.
  - destruct (k =? key) eqn:E.
    + apply String.eqb_eq in E. subst k. exfalso. apply Hfresh.
      apply in_map_iff. now exists (key, z).
    + now apply IH.
Qed.

Lemma declared_NoDup (entries : list (string * ZodType)) :
  NoDup (List.map fst entries) -> NoDup (List.map fst (declared entries)).
Proof.
  unfold declared.
  induction entries as [|[k z] entries IH]; intros Hnd; simpl;
    [constructor|].
  inversion Hnd as [|x l Hfresh Hrest]; subst.
  destruct (k =? "__proto__"); simpl; [now apply IH|].
  constructor; [|now apply IH].
  intros Hin. apply Hfresh. apply in_map_iff in Hin.
  destruct Hin as [e [He Hin]]. apply filter_In in Hin.
  apply in_map_iff. exists e. tauto.
Qed.

Lemma lookup_absent (key : string) (fields : list (string * JsValue)) :
  ~ In key (List.map fst fields) -> lookupField key fields = JUndefined.
Proof.
  induction fields as [|[k v] fields IH]; simpl; [reflexivity|].
  intros Hfresh. destruct (k =? key) eqn:E.
  - apply String.eqb_eq in E. tauto.
  - apply IH. tauto.
Qed.

(** The schema built for a sub-agent's input declares every field of the
    shape but one named __proto__, in order, as a string, whatever the
    field's own type, with its description when it has a non-empty one;
    it requires exactly the fields that are not optional, and has no
    required entry at all when every field is optional.  A field named
    __proto__ is never declared, and still required when it is not
    optional. *)
Theorem zodToJsonSchemaSimple_declares_strings :
  forall entries : list (string * ZodType),
    NoDup (List.map fst entries) ->
    let properties :=
      List.map (fun entry => (fst entry, propertyOf (snd entry)))
        (declared entries) in
    zodToJsonSchemaSimple entries
    = JObject
        ([("type", JString "object"); ("properties", JObject properties)]
           ++ match requiredKeys entries with
              | [] => []
              | keys => [("required", JArray (List.map JString keys))]
              end)
    /\ (forall (key : string) (z : ZodType),
          In (key, z) entries ->
          (key <> "__proto__" -> lookupField key properties = propertyOf z)
          /\ getProp (propertyOf z) "type" = Normal (JString "string")
          /\ (getProp (propertyOf z) "description"
              = Normal match zod_description z with
                       | Some d => if d =? "" then JUndefined else JString d
                       | None => JUndefined
                       end)
          /\ (In key (requiredKeys entries) <-> zod_optional z = false))
    /\ lookupField "__proto__" properties = JUndefined
    /\ (forall key : string,
          In key (List.map fst properties)
          <-> In key (List.map fst entries) /\ key <> "__proto__").
Proof.
  intros entries Hnd properties. split; [|split; [|split]].
  - unfold zodToJsonSchemaSimple.
    rewrite (schema_fold entries [] []) by exact Hnd. simpl.
    destruct (requiredKeys entries); reflexivity.
  - intros key z Hin. split; [|split; [reflexivity|split]].
    + intros Hown. apply lookup_property; [now apply declared_NoDup|].
      apply filter_In. split; [exact Hin|]. simpl.
      apply String.eqb_neq in Hown. now rewrite Hown.
    + unfold propertyOf. simpl.
      destruct (zod_description z) as [d|]; [|reflexivity].
      destruct (d =? ""); reflexivity.
    + unfold requiredKeys. rewrite in_map_iff. split.
      * intros [[k z'] [Hk Hin']]. simpl in Hk. subst k.
        apply filter_In in Hin'. destruct Hin' as [Hin' Hopt].
        simpl in Hopt.
        assert (z' = z); [|subst; now destruct (zod_optional z)].
        clear Hopt properties.
        induction entries as [|[k0 z0] entries IH]; [contradiction|].
        inversion Hnd as [|x l Hfresh Hrest]; subst.
        destruct Hin as [Heq | Hin], Hin' as [Heq' | Hin'].
        -- congruence.
        -- injection Heq as -> ->. exfalso. apply Hfresh.
           apply in_map_iff. now exists (key, z').
        -- injection Heq' as -> ->. exfalso. apply Hfresh.
           apply in_map_iff. now exists (key, z).
        -- now apply IH.
      * intros Hopt. exists (key, z). split; [reflexivity|].
        apply filter_In. split; [exact Hin|]. simpl. now rewrite Hopt.
  - apply lookup_absent. unfold properties. rewrite map_map. simpl.
    intros Hin. apply in_map_iff in Hin. destruct Hin as [e [He Hin]].
    apply filter_In in Hin. destruct Hin as [_ Hown].
    rewrite He in Hown. discriminate.
  - intros key. unfold properties. rewrite map_map. simpl.
    rewrite !in_map_iff. split.
    + intros [e [He Hin]]. apply filter_In in Hin.
      destruct Hin as [Hin Hown]. split; [now exists e|].
      subst key. intros Heq. rewrite Heq in Hown. discriminate.
    + intros [[e [He Hin]] Hown]. exists e. split; [exact He|].
      apply filter_In. split; [exact Hin|]. subst key.
      apply String.eqb_neq in Hown. now rewrite Hown.
Qed.

Section BridgeLawsWithCore.

Variable World : Type.
Variable SessionContext : Type.
Variable GOAL : string.
Variable getActiveModel : World -> string.
Variable registerRuntimeModelConfig : string -> string -> World -> World.
Variable runLocalAgentExecutor :
  LocalAgentDefinition -> JsValue -> World -> Completion OutputObject * World.
Variable sendMessage :
  string -> string -> World -> Completion SendMessageResult * World.
Variable JSON_stringify : JsValue -> string.
(** [JSON.stringify(value, null, 2)], as [execute] calls it. *)
Variable stringifyResult : JsValue -> Completion (option string).

Let local :=
  wrapLocalAgentAsTool World SessionContext GOAL getActiveModel
    registerRuntimeModelConfig runLocalAgentExecutor.
Let remote :=
  wrapRemoteAgentAsTool World SessionContext sendMessage JSON_stringify.
Let define :=
  defineSubAgent World SessionContext GOAL getActiveModel
    registerRuntimeModelConfig runLocalAgentExecutor.




(** A local agent that names its own model never consults the parent's
    active model; without a context nothing is registered and the
    executor is not run; and what the executor throws is thrown on
    unchanged. *)
Theorem local_agent_model_and_failures :
  forall (def : LocalAgentDefinition) (params : JsValue) (w : World),
    (model def <> "inherit" ->
     forall (otherActiveModel : World -> string)
       (ctx : option SessionContext),
       executeLocalAgent World SessionContext GOAL otherActiveModel
         registerRuntimeModelConfig runLocalAgentExecutor def params ctx w
       = executeLocalAgent World SessionContext GOAL getActiveModel
           registerRuntimeModelConfig runLocalAgentExecutor def params ctx w)
    /\ (exists e : Thrown,
          executeLocalAgent World SessionContext GOAL getActiveModel
            registerRuntimeModelConfig runLocalAgentExecutor def params
            None w
          = (Throw e, w))
    /\ (forall (ctx : SessionContext) (e : Thrown) (w' : World),
          runLocalAgentExecutor def params
            (registerRuntimeModelConfig (name def ++ "-config")%string
               (if model def =? "inherit" then getActiveModel w
                else model def) w)
          = (Throw e, w') ->
          executeLocalAgent World SessionContext GOAL getActiveModel
            registerRuntimeModelConfig runLocalAgentExecutor def params
            (Some ctx) w
          = (Throw e, w')).
Proof.
  intros def params w. split; [|split].
  - intros Hown other ctx. unfold executeLocalAgent.
    apply String.eqb_neq in Hown. now rewrite Hown.
  - eexists. reflexivity.
  - intros ctx e w' Hrun. unfold executeLocalAgent. now rewrite Hrun.
Qed.

(** Prompts given as functions are resolved when the tool is called, on
    that call's parameters and context, the system prompt first: a
    resolver that throws ends the call with its error before the agent is
    run, and resolvers that return make the call the run of the agent
    built from the resolved texts. *)
Theorem dynamic_prompts_resolve_per_call :
  forall (options : SubAgentOptions World SessionContext)
    (f : JsValue -> option SessionContext -> World ->
         Completion string * World)
    (params : JsValue) (ctx : option SessionContext) (w : World),
    opt_systemPrompt World SessionContext options = PromptFunction f ->
    (forall (e : Thrown) (w1 : World),
       f params ctx w = (Throw e, w1) ->
       Tool.action (define options) params ctx w = (Throw e, w1))
    /\ (forall (s : string) (w1 : World),
          f params ctx w = (Normal s, w1) ->
          (opt_query World SessionContext options = None ->
           Tool.action (define options) params ctx w
           = Tool.action (local (buildLocalAgentDef World SessionContext
                                   options s None)) params ctx w1)
          /\ (forall t : string,
                opt_query World SessionContext options
                = Some (PromptString t) ->
                Tool.action (define options) params ctx w
                = Tool.action (local (buildLocalAgentDef World
                                        SessionContext options s (Some t)))
                    params ctx w1)
          /\ (forall g,
                opt_query World SessionContext options
                = Some (PromptFunction g) ->
                (forall (e : Thrown) (w2 : World),
                   g params ctx w1 = (Throw e, w2) ->
                   Tool.action (define options) params ctx w = (Throw e, w2))
                /\ (forall (t : string) (w2 : World),
                      g params ctx w1 = (Normal t, w2) ->
                      Tool.action (define options) params ctx w
                      = Tool.action
                          (local (buildLocalAgentDef World SessionContext
                                    options s (Some t)))
                          params ctx w2))).
Proof.
  intros options f params ctx w Hsys.
  unfold define, defineSubAgent. rewrite Hsys. simpl.
  split.
  - intros e w1 Hf. now rewrite Hf.
  - intros s w1 Hf. rewrite Hf. split; [|split].
    + intros ->. reflexivity.
    + intros t ->. reflexivity.
    + intros g ->. simpl. split.
      * intros e w2 Hg. now rewrite Hg.
      * intros t w2 Hg. now rewrite Hg.
Qed.

(** What a remote agent is sent: the query field of the parameters as a
    string when there is one, the empty string when that field is null or
    undefined, and the parameters as JSON when they have no query field
    or are no object; an error of the transport is thrown on. *)
Theorem remote_agent_is_sent_the_query :
  forall (def : RemoteAgentDefinition) (params : JsValue)
    (ctx : option SessionContext) (w : World),
    (forall (fields : list (string * JsValue)) (s : string),
       params = JObject fields ->
       hasField "query" fields = true ->
       lookupField "query" fields = JString s ->
       remoteQuery JSON_stringify params = s)
    /\ (forall fields : list (string * JsValue),
          params = JObject fields ->
          hasField "query" fields = true ->
          notNullish (lookupField "query" fields) = false ->
          remoteQuery JSON_stringify params = "")
    /\ (forall fields : list (string * JsValue),
          params = JObject fields ->
          hasField "query" fields = false ->
          remoteQuery JSON_stringify params = JSON_stringify params)
    /\ ((forall fields, params <> JObject fields) ->
        remoteQuery JSON_stringify params = JSON_stringify params)
    /\ (forall (e : Thrown) (w' : World),
          sendMessage (agentCardUrl def)
            (remoteQuery JSON_stringify params) w = (Throw e, w') ->
          Tool.action (remote def) params ctx w = (Throw e, w')).
Proof.
  intros def params ctx w. split; [|split; [|split; [|split]]].
  - intros fields s -> Hhas Hval. simpl. now rewrite Hhas, Hval.
  - intros fields -> Hhas Hnull. simpl. now rewrite Hhas, Hnull.
  - intros fields -> Hhas. simpl. now rewrite Hhas.
  - intros Hno. destruct params; try reflexivity.
    now destruct (Hno fields).
  - intros e w' Hsend. simpl. now rewrite Hsend.
Qed.

(** What the model is shown when a sub-agent is called as a tool in a
    round: the agent's result as it is when the run reached its goal; the
    termination message behind the error prefix, with the error field
    set, when it ended otherwise; the prefixed message of whatever the
    executor threw; and for a remote agent the text of its answer. *)
Theorem sub_agent_outcome_shown_to_model :
  forall (def : LocalAgentDefinition) (remoteDef : RemoteAgentDefinition)
    (ctx : SessionContext) (params : JsValue) (toolName : option string)
    (w : World),
    let call tool :=
      Tool.execute stringifyResult
        (Tool.createInvocation
           (Tool.withContext (Tool.newSdkTool tool) ctx) params toolName)
        w in
    let registered :=
      registerRuntimeModelConfig (name def ++ "-config")%string
        (if model def =? "inherit" then getActiveModel w else model def)
        w in
    (forall (out : OutputObject) (w' : World),
       runLocalAgentExecutor def params registered = (Normal out, w') ->
       (terminate_reason out = GOAL ->
        call (local def)
        = (Normal {| Tool.llmContent := Some (result out);
                     Tool.returnDisplay := Some (result out);
                     Tool.error := None |}, w'))
       /\ (terminate_reason out <> GOAL ->
           let message := terminatedMessage def (terminate_reason out) in
           call (local def)
           = (Normal {| Tool.llmContent := Some ("Error: " ++ message)%string;
                        Tool.returnDisplay :=
                          Some ("Error: " ++ message)%string;
                        Tool.error := Some message |}, w')))
    /\ (forall (e : Thrown) (w' : World),
          runLocalAgentExecutor def params registered = (Throw e, w') ->
          let message := Tool.errorMessage e in
          call (local def)
          = (Normal {| Tool.llmContent := Some ("Error: " ++ message)%string;
                       Tool.returnDisplay :=
                         Some ("Error: " ++ message)%string;
                       Tool.error := Some message |}, w'))
    /\ (forall (answer : SendMessageResult) (w' : World),
          sendMessage (agentCardUrl remoteDef)
            (remoteQuery JSON_stringify params) w
          = (Normal answer, w') ->
          let text := extractTextFromResult answer in
          call (remote remoteDef)
          = (Normal {| Tool.llmContent := Some text;
                       Tool.returnDisplay := Some text;
                       Tool.error := None |}, w')).
Proof.
  intros def remoteDef ctx params toolName w call registered.
  unfold call, registered, Tool.execute. simpl.
  split; [|split].
  - intros out w' Hrun. unfold executeLocalAgent. rewrite Hrun. split.
    + intros Hgoal. apply String.eqb_eq in Hgoal. now rewrite Hgoal.
    + intros Hother. apply String.eqb_neq in Hother. now rewrite Hother.
  - intros e w' Hrun. unfold executeLocalAgent. now rewrite Hrun.
  - intros answer w' Hsend. now rewrite Hsend.
Qed.

End BridgeLawsWithCore.

(** The sample shape: both fields are strings, only the topic is
    required. *)
Lemma zodToJsonSchemaSimple_declares_strings_witness :
  zodToJsonSchemaSimple sampleShape
  = JObject
      [("type", JString "object");
       ("properties",
        JObject
          [("topic",
            JObject [("type", JString "string");
                     ("description", JString "What to look up")]);
           ("depth", JObject [("type", JString "string")])]);
       ("required", JArray [JString "topic"])].
Proof.
  refine (proj1 (zodToJsonSchemaSimple_declares_strings sampleShape _)).
  repeat constructor; simpl; intuition discriminate.
Defined.

(** The system prompt resolved from the call's parameters: the call is
    the run of the agent built with the resolved text. *)
Lemma dynamic_prompts_resolve_per_call_witness :
  Tool.action
    (defineSubAgent registry unit "GOAL" (fun _ => "gemini-pro")
       (fun alias model w => (alias, model) :: w) outOfTurns dynamicOptions)
    (JString "tides") (Some tt) []
  = Tool.action
      (wrapLocalAgentAsTool registry unit "GOAL" (fun _ => "gemini-pro")
         (fun alias model w => (alias, model) :: w) outOfTurns
         (buildLocalAgentDef registry unit dynamicOptions "Research tides"
            None))
      (JString "tides") (Some tt) [].
Proof.
  apply (proj1 (proj2 (dynamic_prompts_resolve_per_call registry unit "GOAL"
                         (fun _ => "gemini-pro")
                         (fun alias model w => (alias, model) :: w)
                         outOfTurns dynamicOptions _ (JString "tides")
                         (Some tt) [] eq_refl)
                  "Research tides" [] eq_refl)).
  reflexivity.
Defined.

(** The researcher that runs out of turns, called as a tool: the model
    is shown the termination message as an error. *)
Lemma sub_agent_outcome_shown_to_model_witness :
  Tool.execute ToolSamples.unreached
    (Tool.createInvocation
       (Tool.withContext
          (Tool.newSdkTool
             (wrapLocalAgentAsTool registry unit "GOAL"
                (fun _ => "gemini-pro")
                (fun alias model w => (alias, model) :: w) outOfTurns
                researcher))
          tt)
       JNull None)
    []
  = (Normal
       {| Tool.llmContent :=
            Some ("Error: "
                    ++ terminatedMessage researcher "MAX_TURNS")%string;
          Tool.returnDisplay :=
            Some ("Error: "
                    ++ terminatedMessage researcher "MAX_TURNS")%string;
          Tool.error := Some (terminatedMessage researcher "MAX_TURNS") |},
     [("researcher-config", "gemini-pro")]).
Proof.
  refine (proj2 (proj1 (sub_agent_outcome_shown_to_model registry unit
                          "GOAL" (fun _ => "gemini-pro")
                          (fun alias model w => (alias, model) :: w)
                          outOfTurns
                          (fun _ _ w => (Normal quietTask, w)) toString
                          ToolSamples.unreached researcher
                          {| remote_name := "remote";
                             remote_description := "";
                             agentCardUrl := "" |}
                          tt JNull None [])
                   _ _ eq_refl) _).
  discriminate.
Defined.

End BridgeLaws.

(** ** The session context's file and shell access *)

Module ContextLaws.

Import Context ContextTerms.

Section AccessLaws.

Variable World : Type.
Variable validatePathAccess : string -> string -> World -> option string.
Variable fs_readFile : string -> World -> Completion string.
Variable fs_writeFile : string -> string -> World -> Completion unit * World.
Variable getWorkingDir : World -> string.
Variable shouldConfirmExecute : string -> string -> World -> Completion JsValue.
Variable executeShell :
  string -> string -> World -> Completion (string * option Z) * World.

Let read := readFile World validatePathAccess fs_readFile.
Let write := writeFile World validatePathAccess fs_writeFile.
Let allowed := canExecute World shouldConfirmExecute.
Let run := exec World getWorkingDir shouldConfirmExecute executeShell.

(** Files pass the validator: [readFile] gives a content exactly when
    the validator reports no error for reading and the file could be
    read, and null otherwise; [writeFile] throws the validator's message
    and writes nothing when the validator reports one, and is the write
    itself otherwise.  An empty message counts as no error. *)
Theorem files_pass_the_validator :
  forall (path content : string) (w : World),
    (read path w = Some content
     <-> refused (validatePathAccess path "read" w) = false
         /\ fs_readFile path w = Normal content)
    /\ (forall message : string,
          validatePathAccess path "write" w = Some message ->
          message <> "" ->
          write path content w = (Throw (ThrownError message), w))
    /\ (refused (validatePathAccess path "write" w) = false ->
        write path content w = fs_writeFile path content w)
    /\ (forall mode : string,
          validatePathAccess path mode w = None
          \/ validatePathAccess path mode w = Some "" ->
          refused (validatePathAccess path mode w) = false).
Proof.
  intros path content w. unfold read, write, readFile, writeFile.
  split; [|split; [|split]].
  - destruct (refused (validatePathAccess path "read" w)).
    + split; [discriminate | intros [H _]; discriminate].
    + destruct (fs_readFile path w) as [c|e]; split.
      * intros H. injection H as <-. now split.
      * intros [_ H]. now injection H as <-.
      * discriminate.
      * intros [_ H]. discriminate.
  - intros message Hmsg Hne. rewrite Hmsg. simpl.
    apply String.eqb_neq in Hne. now rewrite Hne.
  - intros Hok. now rewrite Hok.
  - intros mode [-> | ->]; reflexivity.
Qed.

(** Commands pass the policy: a command is run only when the shell tool
    asks for no confirmation; when it asks for one, or the check throws,
    the fixed blocked result is returned with exit code 1 and nothing is
    run.  A command that ran reports its output as stdout, an empty
    stderr and its exit code.  Of the options only the directory counts. *)
Theorem commands_pass_the_policy :
  forall (command : string) (options : option ShellOptions) (w : World),
    let cwd := effectiveCwd getWorkingDir options w in
    (allowed command cwd w = true
     <-> exists confirmation : JsValue,
           shouldConfirmExecute command cwd w = Normal confirmation
           /\ truthy confirmation = false)
    /\ (allowed command cwd w = false ->
        run command options w = (Normal blockedResult, w))
    /\ (allowed command cwd w = true ->
        (forall (output : string) (code : option Z) (w' : World),
           executeShell command cwd w = (Normal (output, code), w') ->
           run command options w
           = (Normal {| exitCode := code;
                        stdout := output;
                        stderr := "";
                        shell_error := None |}, w'))
        /\ (forall (e : Thrown) (w' : World),
              executeShell command cwd w = (Throw e, w') ->
              run command options w = (Throw e, w')))
    /\ (forall other : option ShellOptions,
          effectiveCwd getWorkingDir other w = cwd ->
          run command other w = run command options w).
Proof.
  intros command options w cwd.
  assert (Hrun : forall o,
             run command o w
             = if negb (allowed command (effectiveCwd getWorkingDir o w) w)
               then (Normal blockedResult, w)
               else match executeShell command
                            (effectiveCwd getWorkingDir o w) w with
                    | (Throw e, w') => (Throw e, w')
                    | (Normal (output, code), w') =>
                        (Normal {| exitCode := code;
                                   stdout := output;
                                   stderr := "";
                                   shell_error := None |}, w')
                    end).
  { intros o. unfold run, exec, allowed, effectiveCwd.
    destruct o as [[e t [dir|]]|]; reflexivity. }
  split; [|split; [|split]].
  - unfold allowed, canExecute.
    destruct (shouldConfirmExecute command cwd w) as [confirmation|e].
    + split.
      * intros H. exists confirmation. split; [reflexivity|].
        now destruct (truthy confirmation).
      * intros [c [Hc Ht]]. injection Hc as <-. now rewrite Ht.
    + split; [discriminate | intros [c [Hc _]]; discriminate].
  - intros Hno. rewrite Hrun. fold cwd. now rewrite Hno.
  - intros Hyes. split.
    + intros output code w' Hexec. rewrite Hrun. fold cwd.
      now rewrite Hyes, Hexec.
    + intros e w' Hexec. rewrite Hrun. fold cwd. now rewrite Hyes, Hexec.
  - intros other Hsame. rewrite !Hrun. fold cwd. now rewrite Hsame.
Qed.

End AccessLaws.

End ContextLaws.

(** ** Routing the core's log *)

Module LoggerLaws.

Import Logger LoggerTerms.

Section LevelLaws.

Variable Handler : Type.
Variable noop : Handler.
Variable console : Logger Handler.

Let patch := patchCoreLogger noop console.

(** The levels nest: silent routes nothing; each channel is routed from
    its own level upwards, so raising the level never takes a channel
    away; a channel that is routed goes to the destination's method, to
    the console's when no logger is given, and nowhere when the logger
    lacks the method. *)
Theorem log_levels_nest :
  forall (level : LogLevel) (logger : option (Logger Handler)),
    let dest := destination console logger in
    (level = LevelSilent ->
     patch level logger
     = {| debugLogger_log := noop; debugLogger_warn := noop;
          debugLogger_error := noop; debugLogger_debug := noop |})
    /\ (level = LevelDebug ->
        patch level logger
        = {| debugLogger_log := orNoop Handler noop (log dest);
             debugLogger_warn := orNoop Handler noop (warn dest);
             debugLogger_error := orNoop Handler noop (error dest);
             debugLogger_debug := orNoop Handler noop (debug dest) |})
    /\ (forall higher : LogLevel,
          (LOG_LEVEL_ORDER level <= LOG_LEVEL_ORDER higher)%Z ->
          (debugLogger_error (patch level logger) = noop
           \/ debugLogger_error (patch level logger)
              = debugLogger_error (patch higher logger))
          /\ (debugLogger_warn (patch level logger) = noop
              \/ debugLogger_warn (patch level logger)
                 = debugLogger_warn (patch higher logger))
          /\ (debugLogger_log (patch level logger) = noop
              \/ debugLogger_log (patch level logger)
                 = debugLogger_log (patch higher logger))
          /\ (debugLogger_debug (patch level logger) = noop
              \/ debugLogger_debug (patch level logger)
                 = debugLogger_debug (patch higher logger)))
    /\ (debugLogger_error (patch level logger) = noop
        \/ debugLogger_error (patch level logger)
           = orNoop Handler noop (error dest))
    /\ (error dest = None -> debugLogger_error (patch level logger) = noop)
    /\ (level = LevelWarn ->
        debugLogger_log (patch level logger) = noop
        /\ debugLogger_debug (patch level logger) = noop
        /\ debugLogger_warn (patch level logger)
           = orNoop Handler noop (warn dest)
        /\ debugLogger_error (patch level logger)
           = orNoop Handler noop (error dest)).
Proof.
  intros level logger dest. unfold patch, patchCoreLogger.
  fold (destination console logger). fold dest.
  split; [|split; [|split; [|split; [|split]]]].
  - intros ->. reflexivity.
  - intros ->. reflexivity.
  - intros higher Hle.
    destruct level, higher; simpl in Hle; try lia; simpl;
      repeat split; (now left) || (now right).
  - destruct level; simpl; (now left) || (now right).
  - intros Hnone. rewrite Hnone. destruct level; reflexivity.
  - intros ->. repeat split.
Qed.

End LevelLaws.

End LoggerLaws.
